(** * rviz_camera_stream: the CameraPub display and its video publisher

    A shallow embedding of [src/camera_display.cpp]: the camera resolve
    [CameraPub::updateCamera], the render-pass listeners
    [preRenderTargetUpdate] / [postRenderTargetUpdate], the update tick,
    the message callbacks, [clear], the subscription code with
    [onEnable] / [onDisable], and [video_export::VideoPublisher].

    The C++ code computes in [float] (which is also [Ogre::Real]) and
    [double].  The embedding is written once over an arithmetic interface
    [Arith] and read at two instances:
    - [IEEE]: binary32 and binary64 with round-to-nearest-even, built on
      the Standard Library's executable [SpecFloat] operations;
    - [Exact]: both types are the rationals [Qc], nothing rounds. *)

From stdpp Require Import gmap strings vector.
From Stdlib Require Import ZArith Zpower QArith Qcanon Lia Bool List.
From Stdlib Require Import Floats.SpecFloat.
Import ListNotations.

Local Open Scope Z_scope.

(** ** The arithmetic of the source

    [float] stands for the C++ type float (and Ogre::Real), [double] for
    double. *)

Class Arith (float double : Type) := {
  f_of_Z : Z -> float;               (* integer to float conversion *)
  d_of_Z : Z -> double;              (* integer to double conversion *)
  to_double : float -> double;       (* promotion float -> double *)
  to_float : double -> float;        (* narrowing double -> float *)
  d_to_Z : double -> Z;              (* double -> integer, truncating *)
  fadd : float -> float -> float;
  fsub : float -> float -> float;
  fmul : float -> float -> float;
  fdiv : float -> float -> float;
  dadd : double -> double -> double;
  dsub : double -> double -> double;
  dmul : double -> double -> double;
  ddiv : double -> double -> double;
  dneg : double -> double;
  feqb : float -> float -> bool;     (* == *)
  fltb : float -> float -> bool;     (* <  *)
  deqb : double -> double -> bool;
  f_isfinite : float -> bool;        (* !(isnan || isinf) *)
  d_isfinite : double -> bool
}.

Declare Scope flt_scope.
Delimit Scope flt_scope with flt.
Declare Scope dbl_scope.
Delimit Scope dbl_scope with dbl.
Infix "+" := fadd : flt_scope.
Infix "-" := fsub : flt_scope.
Infix "*" := fmul : flt_scope.
Infix "/" := fdiv : flt_scope.
Infix "+" := dadd : dbl_scope.
Infix "-" := dsub : dbl_scope.
Infix "*" := dmul : dbl_scope.
Infix "/" := ddiv : dbl_scope.
Notation "- x" := (dneg x) : dbl_scope.

Section Literals.
Context {float double : Type} {A : Arith float double}.

(** A decimal literal [n/d] of type double: the quotient of two small
    integers, which IEEE division rounds to the double nearest the
    decimal value. *)
Definition d_lit (n d : Z) : double := (d_of_Z n / d_of_Z d)%dbl.

Definition f_lit (n d : Z) : float := (f_of_Z n / f_of_Z d)%flt.

Definition f_gtb (x y : float) : bool := fltb y x.
Definition f_neqb (x y : float) : bool := negb (feqb x y).
End Literals.

(** *** IEEE 754 instance *)

Module B32.
Definition prec := 24.
Definition emax := 128.
Definition of_Z (n : Z) : spec_float := binary_normalize prec emax n 0 false.
Definition add := SFadd prec emax.
Definition sub := SFsub prec emax.
Definition mul := SFmul prec emax.
Definition div := SFdiv prec emax.
End B32.

Module B64.
Definition prec := 53.
Definition emax := 1024.
Definition of_Z (n : Z) : spec_float := binary_normalize prec emax n 0 false.
Definition add := SFadd prec emax.
Definition sub := SFsub prec emax.
Definition mul := SFmul prec emax.
Definition div := SFdiv prec emax.
End B64.

(** Re-rounding a value into the format [(prec, emax)]: exact when the
    value is representable there (float -> double), round-to-nearest-even
    otherwise (double -> float). *)
Definition SFconvert (prec emax : Z) (x : spec_float) : spec_float :=
  match x with
  | S754_finite s m e => binary_normalize prec emax (cond_Zopp s (Zpos m)) e s
  | _ => x
  end.

Definition SFisfinite (x : spec_float) : bool :=
  match x with
  | S754_nan | S754_infinity _ => false
  | _ => true
  end.

(** Conversion to an integer type truncates toward zero.  For NaN and the
    infinities the C++ conversion is undefined; the source never converts
    such a value and the model returns 0 there. *)
Definition SFtrunc (x : spec_float) : Z :=
  match x with
  | S754_finite s m e =>
      cond_Zopp s (if 0 <=? e then Zpos m * 2 ^ e else Zpos m / 2 ^ (- e))
  | _ => 0
  end.

Record binary32 := mk32 { bits32 : spec_float }.
Record binary64 := mk64 { bits64 : spec_float }.

Definition lift32 (op : spec_float -> spec_float -> spec_float) (x y : binary32) :=
  mk32 (op (bits32 x) (bits32 y)).
Definition lift64 (op : spec_float -> spec_float -> spec_float) (x y : binary64) :=
  mk64 (op (bits64 x) (bits64 y)).

#[export] Instance IEEE : Arith binary32 binary64 := {|
  f_of_Z n := mk32 (B32.of_Z n);
  d_of_Z n := mk64 (B64.of_Z n);
  to_double x := mk64 (SFconvert B64.prec B64.emax (bits32 x));
  to_float x := mk32 (SFconvert B32.prec B32.emax (bits64 x));
  d_to_Z x := SFtrunc (bits64 x);
  fadd := lift32 B32.add;
  fsub := lift32 B32.sub;
  fmul := lift32 B32.mul;
  fdiv := lift32 B32.div;
  dadd := lift64 B64.add;
  dsub := lift64 B64.sub;
  dmul := lift64 B64.mul;
  ddiv := lift64 B64.div;
  dneg x := mk64 (SFopp (bits64 x));
  feqb x y := SFeqb (bits32 x) (bits32 y);
  fltb x y := SFltb (bits32 x) (bits32 y);
  deqb x y := SFeqb (bits64 x) (bits64 y);
  f_isfinite x := SFisfinite (bits32 x);
  d_isfinite x := SFisfinite (bits64 x)
|}.

(** *** Exact instance: rational arithmetic, no rounding, no NaN *)

Definition Qc_of_Z (n : Z) : Qc := Q2Qc (inject_Z n).
Definition Qc_trunc (q : Qc) : Z := Z.quot (Qnum q) (Zpos (Qden q)).
Definition Qc_ltb (x y : Qc) : bool :=
  match (x ?= y)%Qc with Lt => true | _ => false end.

Definition Exact : Arith Qc Qc := {|
  f_of_Z := Qc_of_Z;
  d_of_Z := Qc_of_Z;
  to_double x := x;
  to_float x := x;
  d_to_Z := Qc_trunc;
  fadd := Qcplus;
  fsub := Qcminus;
  fmul := Qcmult;
  fdiv := Qcdiv;
  dadd := Qcplus;
  dsub := Qcminus;
  dmul := Qcmult;
  ddiv := Qcdiv;
  dneg := Qcopp;
  feqb := Qc_eq_bool;
  fltb := Qc_ltb;
  deqb := Qc_eq_bool;
  f_isfinite _ := true;
  d_isfinite _ := true
|}.


(** ** Ogre: vectors, quaternions, matrices

    [Ogre::Vector3], [Ogre::Quaternion] and [Ogre::Matrix4] over
    [Ogre::Real], which is [float].  The operators are Ogre's
    (OgreVector3.h, OgreQuaternion.cpp), with the association order of the
    C++ expressions. *)

Section Model.
Context {float double : Type} {A : Arith float double}.
Local Open Scope flt_scope.

Record Vector3 := mkVector3 { vx : float; vy : float; vz : float }.
Record Quaternion := mkQuaternion { qw : float; qx : float; qy : float; qz : float }.

Definition f0 : float := f_of_Z 0.
Definition f1 : float := f_of_Z 1.
Definition f2 : float := f_of_Z 2.

Definition UNIT_X := mkVector3 f1 f0 f0.
Definition UNIT_Y := mkVector3 f0 f1 f0.
Definition UNIT_Z := mkVector3 f0 f0 f1.
Definition IDENTITY := mkQuaternion f1 f0 f0 f0.

(** [Vector3::operator+] *)
Definition Vadd (a b : Vector3) : Vector3 :=
  mkVector3 (vx a + vx b) (vy a + vy b) (vz a + vz b).

(** [Vector3::operator*(Real)] *)
Definition Vscale (a : Vector3) (k : float) : Vector3 :=
  mkVector3 (vx a * k) (vy a * k) (vz a * k).

(** [Vector3::crossProduct] *)
Definition crossProduct (a b : Vector3) : Vector3 :=
  mkVector3 (vy a * vz b - vz a * vy b)
            (vz a * vx b - vx a * vz b)
            (vx a * vy b - vy a * vx b).

(** [Quaternion::operator*(const Quaternion&)] *)
Definition Qmul (p q : Quaternion) : Quaternion :=
  mkQuaternion
    (qw p * qw q - qx p * qx q - qy p * qy q - qz p * qz q)
    (qw p * qx q + qx p * qw q + qy p * qz q - qz p * qy q)
    (qw p * qy q + qy p * qw q + qz p * qx q - qx p * qz q)
    (qw p * qz q + qz p * qw q + qx p * qy q - qy p * qx q).

(** [Quaternion::operator*(const Vector3&)]: rotate [v] by the quaternion. *)
Definition Qrotate (q : Quaternion) (v : Vector3) : Vector3 :=
  let qvec := mkVector3 (qx q) (qy q) (qz q) in
  let uv := crossProduct qvec v in
  let uuv := crossProduct qvec uv in
  let uv := Vscale uv (f2 * qw q) in
  let uuv := Vscale uuv f2 in
  Vadd (Vadd v uv) uuv.

(** What Ogre takes from the host: the constant [Math::PI] and the
    single-precision sine and cosine of the C library. *)
Record OgreMath := { PI : float; Sin : float -> float; Cos : float -> float }.

(** [Degree(d)] converted to [Radian]: [d * fDeg2Rad], [fDeg2Rad = PI / 180]. *)
Definition DegreesToRadians (M : OgreMath) (d : float) : float :=
  d * (PI M / f_of_Z 180).

(** [Quaternion(const Radian&, const Vector3&)], i.e. [FromAngleAxis]. *)
Definition FromAngleAxis (M : OgreMath) (angle : float) (axis : Vector3) : Quaternion :=
  let fHalfAngle := f_lit 1 2 * angle in
  let fSin := Sin M fHalfAngle in
  mkQuaternion (Cos M fHalfAngle) (fSin * vx axis) (fSin * vy axis) (fSin * vz axis).

(** [Matrix4]: four rows of four entries, [m[i][j]]. *)
Definition Matrix4 := vec (vec float 4) 4.
Definition Matrix4_ZERO : Matrix4 := vreplicate 4 (vreplicate 4 f0).
Definition mget (m : Matrix4) (i j : fin 4) : float := (m !!! i) !!! j.
Definition mset (m : Matrix4) (i j : fin 4) (x : float) : Matrix4 :=
  vinsert i (vinsert j x (m !!! i)) m.

(** rviz/validate_floats.h *)
Definition validateFloats_double (x : double) : bool := d_isfinite x.
Definition validateFloats_Vector3 (v : Vector3) : bool :=
  f_isfinite (vx v) && f_isfinite (vy v) && f_isfinite (vz v).

(** ** ROS messages and the rviz services the display uses *)

(** [ros::Time]: seconds and nanoseconds, compared field by field. *)
Record Time := mkTime { sec : Z; nsec : Z }.

Definition Time_eqb (a b : Time) : bool := (sec a =? sec b) && (nsec a =? nsec b).

Record Header := mkHeader { stamp : Time; frame_id : string }.

(** [sensor_msgs::Image]: the header and what [ROSImageTexture::update]
  reads of the rest. *)
Record Image := mkImage {
image_header : Header;
image_width : Z;
image_height : Z;
image_data_empty : bool;
image_encoding : string;
image_encoding_supported : bool
}.

(** [StatusProperty::Level] and the text shown beside it. *)
Inductive Level := Ok | Warn | Error.

(** Every status text of the source is a literal or a concatenation of
  strings, except the one that prints a time with [toSec()]. *)
Inductive StatusText :=
| Text (s : string)
| NoImageAtTimestamp (t : Time).
    (* "Time-syncing active and no image at timestamp <t.toSec()>." *)

Definition Status : Type := Level * StatusText.

Inductive SyncMode := SyncOff | SyncExact | SyncApprox.

Definition SyncMode_eqb (a b : SyncMode) : bool :=
match a, b with
| SyncOff, SyncOff | SyncExact, SyncExact | SyncApprox, SyncApprox => true
| _, _ => false
end.


(** [sensor_msgs::CameraInfo]: [D] is a vector, [K], [R] and [P] are
    arrays of 9, 9 and 12 doubles; [width] and [height] are uint32. *)
Record CameraInfo := mkCameraInfo {
  info_header : Header;
  height : Z;
  width : Z;
  D : list double;
  K : vec double 9;
  R : vec double 9;
  P : vec double 12
}.

(** [bool validateFloats(const sensor_msgs::CameraInfo& msg)] *)
Definition validateFloats (msg : CameraInfo) : bool :=
  let valid := true in
  let valid := valid && forallb validateFloats_double (D msg) in
  let valid := valid && forallb validateFloats_double (vec_to_list (K msg)) in
  let valid := valid && forallb validateFloats_double (vec_to_list (R msg)) in
  let valid := valid && forallb validateFloats_double (vec_to_list (P msg)) in
  valid.

(** The result of [FrameManager::getTransform]: its boolean, and what
    the two out-parameters hold when it returns. *)
Record Transform := mkTransform {
  lookup_ok : bool;
  tf_position : Vector3;
  tf_orientation : Quaternion
}.

(** [context_->getFrameManager()] and the host's Ogre arithmetic. *)
Record DisplayContext := mkDisplayContext {
  getTime : Time;
  getSyncMode : SyncMode;
  getTransform : string -> Time -> Transform;
  ogre_math : OgreMath
}.

(** The virtual camera of the render panel. *)
Record Camera := mkCamera {
  cam_position : Vector3;
  cam_orientation : Quaternion;
  cam_custom_projection : option Matrix4
}.

(** [Ogre::Rectangle2D::setCorners(left, top, right, bottom)] *)
Record Rectangle2D := mkRectangle2D {
  rect_left : float; rect_top : float; rect_right : float; rect_bottom : float
}.

(** [Ogre::RenderWindow] as the publisher reads it. *)
Record RenderWindow := mkRenderWindow {
  getWidth : Z;
  getHeight : Z;
  getNumElemBytes : Z         (* bytes per pixel of suggestPixelFormat() *)
}.

Record RenderPanel := mkRenderPanel {
  panel_width : Z;            (* QWidget::width() *)
  panel_height : Z;
  getCamera : Camera;
  getRenderWindow : RenderWindow
}.

(** [rviz::ROSImageTexture] *)
Record ROSImageTexture := mkTexture {
  getImage : option Image;    (* current_image_ *)
  new_image_ : bool;
  tex_width : Z;              (* getWidth() *)
  tex_height : Z              (* getHeight() *)
}.

(** *** video_export::VideoPublisher *)

(** The [sensor_msgs::Image] that [publishFrame] fills in. *)
Record Frame := mkFrame {
  frame_seq : Z;
  frame_height : Z;
  frame_width : Z;
  frame_step : Z;
  frame_encoding : string;
  frame_data_size : Z
}.

(** The two screen-filling surfaces: [bg_scene_node_] and [fg_scene_node_]. *)
Inductive Surface := Background | Overlay.

(** What the display does at its external interfaces, oldest first. *)
Inductive Event :=
  | EvSetVisible (s : Surface) (v : bool)  (* scene node ->setVisible(v) *)
  | EvAdvertise (topic : string)           (* it_.advertise(topic, 1) *)
  | EvShutdown                             (* pub_.shutdown() *)
  | EvAlloc (bytes : Z)                    (* OGRE_ALLOC_T(uchar, bytes, ..) *)
  | EvCopyContents (w h : Z)               (* copyContentsToMemory(pb) *)
  | EvPublish (f : Frame)                  (* pub_.publish(image) *)
  | EvRender (bg fg : bool)                (* the window renders; visible surfaces *)
  | EvQueueRender.                         (* context_->queueRender() *)

Record VideoPublisher := mkVideoPublisher {
  pub_topic : string;         (* pub_.getTopic() *)
  image_id_ : Z
}.

Definition uint_max : Z := 2 ^ 32.

(** [uint datasize = width * height * pixelsize;] in 32-bit unsigned
    arithmetic. *)
Definition datasize (rw : RenderWindow) : Z :=
  (getWidth rw * getHeight rw * getNumElemBytes rw) mod uint_max.

(** The bytes the frame of a window takes: [width * height * pixelsize]
    as a number, without the 32-bit wrap-around. *)
Definition required_bytes (rw : RenderWindow) : Z :=
  getWidth rw * getHeight rw * getNumElemBytes rw.

(** The byte count handed to [OGRE_ALLOC_T]: [datasize * 1.05], a
    double, converted to [size_t]. *)
Definition buffer_bytes (rw : RenderWindow) : Z :=
  d_to_Z (d_of_Z (datasize rw) * d_lit 105 100)%dbl.

Definition VideoPublisher_shutdown (vp : VideoPublisher) : VideoPublisher * list Event :=
  if String.eqb (pub_topic vp) "" then (vp, [])
  else (mkVideoPublisher "" (image_id_ vp), [EvShutdown]).

Definition advertise (topic : string) (vp : VideoPublisher) : VideoPublisher * list Event :=
  (mkVideoPublisher topic (image_id_ vp), [EvAdvertise topic]).

Definition publishFrame (rw : RenderWindow) (vp : VideoPublisher)
  : VideoPublisher * list Event :=
  if String.eqb (pub_topic vp) "" then (vp, [])
  else
    let height := getHeight rw in
    let width := getWidth rw in
    let pixelsize := getNumElemBytes rw in
    let image := {|
      frame_seq := image_id_ vp;
      frame_height := height;
      frame_width := width;
      frame_step := (pixelsize * width) mod uint_max;
      frame_encoding := "rgb8";
      frame_data_size := datasize rw |} in
    (mkVideoPublisher (pub_topic vp) ((image_id_ vp + 1) mod uint_max),
     [EvAlloc (buffer_bytes rw); EvCopyContents width height; EvPublish image]).

(** *** rviz::CameraPub *)

Record CameraPub := mkCameraPub {
  texture_ : ROSImageTexture;
  render_panel_ : RenderPanel;
  current_caminfo_ : option CameraInfo;
  new_caminfo_ : bool;
  force_render_ : bool;
  caminfo_ok_ : bool;
  bg_visible : bool;                 (* bg_scene_node_ visibility *)
  fg_visible : bool;                 (* fg_scene_node_ visibility *)
  bg_screen_rect_ : Rectangle2D;
  fg_screen_rect_ : Rectangle2D;
  image_position_property_ : string;
  video_publisher_ : VideoPublisher;
  isEnabled : bool;
  topic_property_ : string;
  caminfo_sub_ : string;             (* caminfo_sub_.getTopic() *)
  status_ : gmap string Status;
  events : list Event
}.

Definition BACKGROUND : string := "background".
Definition OVERLAY : string := "overlay".
Definition BOTH : string := "background and overlay".

Definition setStatus (l : Level) (name : string) (text : StatusText) (d : CameraPub)
  : CameraPub :=
  mkCameraPub (texture_ d) (render_panel_ d) (current_caminfo_ d) (new_caminfo_ d)
    (force_render_ d) (caminfo_ok_ d) (bg_visible d) (fg_visible d)
    (bg_screen_rect_ d) (fg_screen_rect_ d) (image_position_property_ d)
    (video_publisher_ d) (isEnabled d) (topic_property_ d) (caminfo_sub_ d)
    (<[name := (l, text)]> (status_ d)) (events d).

Definition set_camera (c : Camera) (d : CameraPub) : CameraPub :=
  let rp := render_panel_ d in
  mkCameraPub (texture_ d)
    (mkRenderPanel (panel_width rp) (panel_height rp) c (getRenderWindow rp))
    (current_caminfo_ d) (new_caminfo_ d)
    (force_render_ d) (caminfo_ok_ d) (bg_visible d) (fg_visible d)
    (bg_screen_rect_ d) (fg_screen_rect_ d) (image_position_property_ d)
    (video_publisher_ d) (isEnabled d) (topic_property_ d) (caminfo_sub_ d)
    (status_ d) (events d).

Definition set_rects (bg fg : Rectangle2D) (d : CameraPub) : CameraPub :=
  mkCameraPub (texture_ d) (render_panel_ d) (current_caminfo_ d) (new_caminfo_ d)
    (force_render_ d) (caminfo_ok_ d) (bg_visible d) (fg_visible d)
    bg fg (image_position_property_ d)
    (video_publisher_ d) (isEnabled d) (topic_property_ d) (caminfo_sub_ d)
    (status_ d) (events d).

Definition set_flags (new_caminfo force_render caminfo_ok : bool) (d : CameraPub)
  : CameraPub :=
  mkCameraPub (texture_ d) (render_panel_ d) (current_caminfo_ d) new_caminfo
    force_render caminfo_ok (bg_visible d) (fg_visible d)
    (bg_screen_rect_ d) (fg_screen_rect_ d) (image_position_property_ d)
    (video_publisher_ d) (isEnabled d) (topic_property_ d) (caminfo_sub_ d)
    (status_ d) (events d).

Definition set_texture (t : ROSImageTexture) (d : CameraPub) : CameraPub :=
  mkCameraPub t (render_panel_ d) (current_caminfo_ d) (new_caminfo_ d)
    (force_render_ d) (caminfo_ok_ d) (bg_visible d) (fg_visible d)
    (bg_screen_rect_ d) (fg_screen_rect_ d) (image_position_property_ d)
    (video_publisher_ d) (isEnabled d) (topic_property_ d) (caminfo_sub_ d)
    (status_ d) (events d).

Definition set_caminfo (c : option CameraInfo) (d : CameraPub) : CameraPub :=
  mkCameraPub (texture_ d) (render_panel_ d) c (new_caminfo_ d)
    (force_render_ d) (caminfo_ok_ d) (bg_visible d) (fg_visible d)
    (bg_screen_rect_ d) (fg_screen_rect_ d) (image_position_property_ d)
    (video_publisher_ d) (isEnabled d) (topic_property_ d) (caminfo_sub_ d)
    (status_ d) (events d).

Definition set_caminfo_sub (topic : string) (d : CameraPub) : CameraPub :=
  mkCameraPub (texture_ d) (render_panel_ d) (current_caminfo_ d) (new_caminfo_ d)
    (force_render_ d) (caminfo_ok_ d) (bg_visible d) (fg_visible d)
    (bg_screen_rect_ d) (fg_screen_rect_ d) (image_position_property_ d)
    (video_publisher_ d) (isEnabled d) (topic_property_ d) topic
    (status_ d) (events d).

(** Run a publisher method on [video_publisher_] and log its events. *)
Definition with_publisher (m : VideoPublisher -> VideoPublisher * list Event)
    (d : CameraPub) : CameraPub :=
  let '(vp, evs) := m (video_publisher_ d) in
  mkCameraPub (texture_ d) (render_panel_ d) (current_caminfo_ d) (new_caminfo_ d)
    (force_render_ d) (caminfo_ok_ d) (bg_visible d) (fg_visible d)
    (bg_screen_rect_ d) (fg_screen_rect_ d) (image_position_property_ d)
    vp (isEnabled d) (topic_property_ d) (caminfo_sub_ d)
    (status_ d) (events d ++ evs).

Definition log (e : Event) (d : CameraPub) : CameraPub :=
  with_publisher (fun vp => (vp, [e])) d.

(** [bg_scene_node_->setVisible(v)] or [fg_scene_node_->setVisible(v)] *)
Definition setVisible (s : Surface) (v : bool) (d : CameraPub) : CameraPub :=
  let bg := match s with Background => v | Overlay => bg_visible d end in
  let fg := match s with Background => fg_visible d | Overlay => v end in
  mkCameraPub (texture_ d) (render_panel_ d) (current_caminfo_ d) (new_caminfo_ d)
    (force_render_ d) (caminfo_ok_ d) bg fg
    (bg_screen_rect_ d) (fg_screen_rect_ d) (image_position_property_ d)
    (video_publisher_ d) (isEnabled d) (topic_property_ d) (caminfo_sub_ d)
    (status_ d) (events d ++ [EvSetVisible s v]).

(** **** [CameraPub::updateCamera], in the order of the source *)

(** Lines 457-458: convert vision (Z-forward) frame to ogre frame (Z-out):
    [orientation * Ogre::Quaternion(Ogre::Degree(180), Ogre::Vector3::UNIT_X)]. *)
Definition vision_to_ogre (M : OgreMath) (orientation : Quaternion) : Quaternion :=
  Qmul orientation (FromAngleAxis M (DegreesToRadians M (f_of_Z 180)) UNIT_X).

(** Lines 460-474: the image size of the CameraInfo, each dimension
    replaced by the texture's when it is 0. *)
Definition image_size (info : CameraInfo) (t : ROSImageTexture) : float * float :=
  let img_width := f_of_Z (width info) in
  let img_height := f_of_Z (height info) in
  let img_width :=
    if feqb img_width (f_of_Z 0) then f_of_Z (tex_width t) else img_width in
  let img_height :=
    if feqb img_height (f_of_Z 0) then f_of_Z (tex_height t) else img_height in
  (img_width, img_height).

(** Line 476: [img_height == 0.0 || img_width == 0.0], compared as doubles. *)
Definition size_undetermined (img_width img_height : float) : bool :=
  deqb (to_double img_height) (d_of_Z 0) || deqb (to_double img_width) (d_of_Z 0).

(** Line 494: [float img_aspect = (img_width / fx) / (img_height / fy);],
    computed in double and narrowed to float. *)
Definition img_aspect (img_width img_height : float) (fx fy : double) : float :=
  to_float ((to_double img_width / fx) / (to_double img_height / fy))%dbl.

(** Line 495: [float win_aspect = win_width / win_height;] *)
Definition win_aspect (win_width win_height : float) : float :=
  (win_width / win_height)%flt.

(** Lines 486-505: the zoom factors [(zoom_x, zoom_y)]. *)
Definition zoom_factors (img_width img_height : float) (fx fy : double)
    (win_width win_height : float) : float * float :=
  let zoom_x := to_float (d_of_Z 1) in
  let zoom_y := zoom_x in
  if f_neqb win_width (f_of_Z 0) && f_neqb win_height (f_of_Z 0) then
    let img_aspect := img_aspect img_width img_height fx fy in
    let win_aspect := win_aspect win_width win_height in
    if f_gtb img_aspect win_aspect
    then (zoom_x, (zoom_y / img_aspect * win_aspect)%flt)
    else ((zoom_x / win_aspect * img_aspect)%flt, zoom_y)
  else (zoom_x, zoom_y).

(** Lines 507-514: the camera's translation relative to the left camera. *)
Definition baseline_position (info : CameraInfo) (position : Vector3)
    (orientation : Quaternion) : Vector3 :=
  let fx := P info !!! 0%fin in
  let fy := P info !!! 5%fin in
  let tx := (d_of_Z (-1) * (P info !!! 3%fin / fx))%dbl in
  let right := Qrotate orientation UNIT_X in
  let position := Vadd position (Vscale right (to_float tx)) in
  let ty := (d_of_Z (-1) * (P info !!! 7%fin / fy))%dbl in
  let down := Qrotate orientation UNIT_Y in
  Vadd position (Vscale down (to_float ty)).

(** Lines 526-545: the projection matrix. *)
Definition projection_matrix (info : CameraInfo) (img_width img_height : float)
    (zoom_x zoom_y : float) : Matrix4 :=
  let fx := P info !!! 0%fin in
  let fy := P info !!! 5%fin in
  let cx := P info !!! 2%fin in
  let cy := P info !!! 6%fin in
  let far_plane := d_of_Z 100 in
  let near_plane := d_lit 1 100 in
  let two := d_of_Z 2 in
  let half := d_lit 1 2 in
  let m := Matrix4_ZERO in
  let m := mset m 0%fin 0%fin
    (to_float (two * fx / to_double img_width * to_double zoom_x)%dbl) in
  let m := mset m 1%fin 1%fin
    (to_float (two * fy / to_double img_height * to_double zoom_y)%dbl) in
  let m := mset m 0%fin 2%fin
    (to_float (two * (half - cx / to_double img_width) * to_double zoom_x)%dbl) in
  let m := mset m 1%fin 2%fin
    (to_float (two * (cy / to_double img_height - half) * to_double zoom_y)%dbl) in
  let m := mset m 2%fin 2%fin
    (to_float (- (far_plane + near_plane) / (far_plane - near_plane))%dbl) in
  let m := mset m 2%fin 3%fin
    (to_float (- two * far_plane * near_plane / (far_plane - near_plane))%dbl) in
  mset m 3%fin 2%fin (f_of_Z (-1)).

(** Lines 558-559: [setCorners(-1.0f * zoom_x, 1.0f * zoom_y, 1.0f * zoom_x,
    -1.0f * zoom_y)]. *)
Definition zoomed_rect (zoom_x zoom_y : float) : Rectangle2D :=
  mkRectangle2D (f_of_Z (-1) * zoom_x)%flt (f_of_Z 1 * zoom_y)%flt
                (f_of_Z 1 * zoom_x)%flt (f_of_Z (-1) * zoom_y)%flt.

Definition msg_invalid_floats : StatusText :=
  Text "Contains invalid floating point values (nans or infs)".
Definition msg_malformed : StatusText :=
  Text "Could not determine width/height of image due to malformed CameraInfo (either width or height is 0)".
Definition msg_invalid_position : StatusText :=
  Text "CameraInfo/P resulted in an invalid position calculation (nans or infs)".

Definition updateCamera (ctx : DisplayContext) (d : CameraPub) : bool * CameraPub :=
  match current_caminfo_ d, getImage (texture_ d) with
  | Some info, Some image =>
    if negb (validateFloats info) then
      (false, setStatus Error "Camera Info" msg_invalid_floats d)
    else
    (* if we're in 'exact' time mode, only show image if the time is exactly right *)
    let rviz_time := getTime ctx in
    if SyncMode_eqb (getSyncMode ctx) SyncExact
       && negb (Time_eqb rviz_time (stamp (image_header image))) then
      (false, setStatus Warn "Time" (NoImageAtTimestamp rviz_time) d)
    else
    let tf := getTransform ctx (frame_id (image_header image))
                (stamp (image_header image)) in
    let position := tf_position tf in
    let orientation := tf_orientation tf in
    let orientation := vision_to_ogre (ogre_math ctx) orientation in
    let '(img_width, img_height) := image_size info (texture_ d) in
    if size_undetermined img_width img_height then
      (false, setStatus Error "Camera Info" msg_malformed d)
    else
    let fx := P info !!! 0%fin in
    let fy := P info !!! 5%fin in
    let win_width := f_of_Z (panel_width (render_panel_ d)) in
    let win_height := f_of_Z (panel_height (render_panel_ d)) in
    let '(zoom_x, zoom_y) :=
      zoom_factors img_width img_height fx fy win_width win_height in
    let position := baseline_position info position orientation in
    if negb (validateFloats_Vector3 position) then
      (false, setStatus Error "Camera Info" msg_invalid_position d)
    else
    let proj_matrix := projection_matrix info img_width img_height zoom_x zoom_y in
    let d := set_camera (mkCamera position orientation (Some proj_matrix)) d in
    let d := setStatus Ok "Camera Info" (Text "OK") d in
    (* adjust the image rectangles to fit the zoom & aspect ratio *)
    let d := set_rects (zoomed_rect zoom_x zoom_y) (zoomed_rect zoom_x zoom_y) d in
    let d := setStatus Ok "Time" (Text "ok") d in
    let d := setStatus Ok "Camera Info" (Text "ok") d in
    (true, d)
  | _, _ => (false, d)
  end.

(** **** The render-pass listeners *)

(** [CameraPub::preRenderTargetUpdate] *)
Definition preRenderTargetUpdate (d : CameraPub) : CameraPub :=
  let image_position := image_position_property_ d in
  let d := setVisible Background
    (caminfo_ok_ d && (String.eqb image_position BACKGROUND
                       || String.eqb image_position BOTH)) d in
  setVisible Overlay
    (caminfo_ok_ d && (String.eqb image_position OVERLAY
                       || String.eqb image_position BOTH)) d.

(** [CameraPub::postRenderTargetUpdate] *)
Definition postRenderTargetUpdate (d : CameraPub) : CameraPub :=
  let d := setVisible Background false d in
  let d := setVisible Overlay false d in
  (* Publish the rendered window video stream *)
  with_publisher (publishFrame (getRenderWindow (render_panel_ d))) d.

(** [render_panel_->getRenderWindow()->update()]: Ogre calls the
    listener before the pass, renders, and calls it after the pass. *)
Definition RenderWindow_update (d : CameraPub) : CameraPub :=
  let d := preRenderTargetUpdate d in
  let d := log (EvRender (bg_visible d) (fg_visible d)) d in
  postRenderTargetUpdate d.

(** **** The update tick *)

Inductive TextureUpdate := Updated | NotUpdated | UnsupportedImageEncoding.

(** [ROSImageTexture::update] (rviz): true when a new image was loaded
    into the texture; throws on an encoding it cannot convert. *)
Definition texture_update (t : ROSImageTexture) : TextureUpdate * ROSImageTexture :=
  match getImage t with
  | Some image =>
    if new_image_ t then
      let t := mkTexture (getImage t) false (tex_width t) (tex_height t) in
      if image_data_empty image then (NotUpdated, t)
      else if image_encoding_supported image then
        (Updated, mkTexture (getImage t) false (image_width image) (image_height image))
      else (UnsupportedImageEncoding, t)
    else (NotUpdated, t)
  | None => (NotUpdated, t)
  end.

(** [e.what()] of the [UnsupportedImageEncoding] that [texture_.update()]
    throws for its current image (rviz):
    ["Unsupported image encoding [" + encoding + "]"]. *)
Definition UnsupportedImageEncoding_what (t : ROSImageTexture) : string :=
  match getImage t with
  | Some image =>
      String.append "Unsupported image encoding ["
        (String.append (image_encoding image) "]")
  | None => "Unsupported image encoding []"
  end.

(** [CameraPub::update] *)
Definition update (ctx : DisplayContext) (d : CameraPub) : CameraPub :=
  let '(r, t) := texture_update (texture_ d) in
  let d := set_texture t d in
  let d :=
    match r with
    | UnsupportedImageEncoding =>
        setStatus Error "Image" (Text (UnsupportedImageEncoding_what t)) d
    | _ =>
        if match r with Updated => true | _ => false end || force_render_ d then
          let '(ok, d) := updateCamera ctx d in
          set_flags (new_caminfo_ d) false ok d
        else d
    end in
  RenderWindow_update d.

(** **** Subscription *)

(** The transport as [subscribe] meets it: the camera-info topic that
    belongs to an image topic, and whether subscribing to it throws
    ([Some what]) or not. *)
Record Transport := mkTransport {
  getCameraInfoTopic : string -> string;
  subscribe_throws : string -> option string
}.

(** [CameraPub::subscribe] *)
Definition subscribe (tr : Transport) (d : CameraPub) : CameraPub :=
  if negb (isEnabled d) || String.eqb (topic_property_ d) "" then d
  else
    let caminfo_topic := getCameraInfoTopic tr (topic_property_ d) in
    let d :=
      match subscribe_throws tr caminfo_topic with
      | None =>
          setStatus Ok "Camera Info" (Text "OK") (set_caminfo_sub caminfo_topic d)
      | Some what =>
          setStatus Error "Camera Info" (Text ("Error subscribing: " ++ what)) d
      end in
    (* TODO(lwalter) need to make this topic come from plugin ui *)
    with_publisher (advertise "rviz_out") d.

(** [CameraPub::unsubscribe].  [caminfo_sub_.unsubscribe()] shuts the
    subscription down; [caminfo_sub_.getTopic()] keeps naming the topic
    last subscribed to. *)
Definition unsubscribe (d : CameraPub) : CameraPub :=
  with_publisher VideoPublisher_shutdown d.


(** The position [clear] parks the camera at. *)
Definition parked : Vector3 :=
  mkVector3 (f_of_Z 999999) (f_of_Z 999999) (f_of_Z 999999).

(** [ROSImageTexture::clear] (rviz): the current image is dropped; the
    width and height of the last image loaded are kept. *)
Definition texture_clear (t : ROSImageTexture) : ROSImageTexture :=
  mkTexture None false (tex_width t) (tex_height t).

(** [CameraPub::clear] *)
Definition clear (d : CameraPub) : CameraPub :=
  let d := set_texture (texture_clear (texture_ d)) d in
  let d := log EvQueueRender (set_flags (new_caminfo_ d) true (caminfo_ok_ d) d) in
  let d := set_flags false (force_render_ d) (caminfo_ok_ d) d in
  let d := set_caminfo None d in
  let d := setStatus Warn "Camera Info"
    (Text ("No CameraInfo received on [" ++ caminfo_sub_ d ++ "].  Topic may not exist.")) d in
  let d := setStatus Warn "Image" (Text "No Image received") d in
  let c := getCamera (render_panel_ d) in
  set_camera (mkCamera parked (cam_orientation c) (cam_custom_projection c)) d.

(** [CameraPub::caminfoCallback] *)
Definition caminfoCallback (msg : CameraInfo) (d : CameraPub) : CameraPub :=
  set_flags true (force_render_ d) (caminfo_ok_ d) (set_caminfo (Some msg) d).

(** [CameraPub::processMessage]: [texture_.addMessage(msg)]. *)
Definition processMessage (msg : Image) (d : CameraPub) : CameraPub :=
  set_texture (mkTexture (Some msg) true (tex_width (texture_ d)) (tex_height (texture_ d))) d.

(** ** How a resolve ends

  [updateCamera] either leaves through one of five early returns or
  commits.  [rejection] names the early return taken, reading the checks
  in the order of the source. *)

Inductive Rejection :=
| NoInput             (* !info || !image *)
| InvalidFloats       (* !validateFloats(info) *)
| SyncMismatch        (* SyncExact && rviz_time != image->header.stamp *)
| Malformed           (* img_height == 0.0 || img_width == 0.0 *)
| InvalidPosition.    (* !validateFloats(position) *)


Definition sync_mismatch (ctx : DisplayContext) (image : Image) : bool :=
  SyncMode_eqb (getSyncMode ctx) SyncExact
  && negb (Time_eqb (getTime ctx) (stamp (image_header image))).

(** The pose the lookup left in the out-parameters. *)
Definition looked_up (ctx : DisplayContext) (image : Image) : Transform :=
  getTransform ctx (frame_id (image_header image)) (stamp (image_header image)).

Definition resolved_orientation (ctx : DisplayContext) (image : Image) : Quaternion :=
  vision_to_ogre (ogre_math ctx) (tf_orientation (looked_up ctx image)).

Definition resolved_position (ctx : DisplayContext) (info : CameraInfo) (image : Image)
  : Vector3 :=
  baseline_position info (tf_position (looked_up ctx image))
    (resolved_orientation ctx image).

Definition resolved_zoom (info : CameraInfo) (d : CameraPub) : float * float :=
  let '(img_width, img_height) := image_size info (texture_ d) in
  zoom_factors img_width img_height (P info !!! 0%fin) (P info !!! 5%fin)
    (f_of_Z (panel_width (render_panel_ d))) (f_of_Z (panel_height (render_panel_ d))).

Definition resolved_projection (info : CameraInfo) (d : CameraPub) : Matrix4 :=
  let '(img_width, img_height) := image_size info (texture_ d) in
  let '(zoom_x, zoom_y) := resolved_zoom info d in
  projection_matrix info img_width img_height zoom_x zoom_y.

Definition rejection (ctx : DisplayContext) (d : CameraPub) : option Rejection :=
  match current_caminfo_ d, getImage (texture_ d) with
  | Some info, Some image =>
    if negb (validateFloats info) then Some InvalidFloats
    else if sync_mismatch ctx image then Some SyncMismatch
    else
      let '(img_width, img_height) := image_size info (texture_ d) in
      if size_undetermined img_width img_height then Some Malformed
      else if negb (validateFloats_Vector3 (resolved_position ctx info image))
      then Some InvalidPosition
      else None
  | _, _ => Some NoInput
  end.

(** The status an early return leaves behind. *)
Definition rejected (r : Rejection) (ctx : DisplayContext) (d : CameraPub) : CameraPub :=
  match r with
  | NoInput => d
  | InvalidFloats => setStatus Error "Camera Info" msg_invalid_floats d
  | SyncMismatch => setStatus Warn "Time" (NoImageAtTimestamp (getTime ctx)) d
  | Malformed => setStatus Error "Camera Info" msg_malformed d
  | InvalidPosition => setStatus Error "Camera Info" msg_invalid_position d
  end.

(** What a resolve that passes every check writes. *)
Definition committed (ctx : DisplayContext) (info : CameraInfo) (image : Image)
    (d : CameraPub) : CameraPub :=
  let '(zoom_x, zoom_y) := resolved_zoom info d in
  let d := set_camera (mkCamera (resolved_position ctx info image)
                         (resolved_orientation ctx image)
                         (Some (resolved_projection info d))) d in
  let d := setStatus Ok "Camera Info" (Text "OK") d in
  let d := set_rects (zoomed_rect zoom_x zoom_y) (zoomed_rect zoom_x zoom_y) d in
  let d := setStatus Ok "Time" (Text "ok") d in
  setStatus Ok "Camera Info" (Text "ok") d.

(** The same context with one field replaced. *)
Definition with_time (t : Time) (ctx : DisplayContext) : DisplayContext :=
  mkDisplayContext t (getSyncMode ctx) (getTransform ctx) (ogre_math ctx).

Definition with_sync (m : SyncMode) (ctx : DisplayContext) : DisplayContext :=
  mkDisplayContext (getTime ctx) m (getTransform ctx) (ogre_math ctx).

(** The same context whose lookups report [ok] but leave the same
    position and orientation in the out-parameters. *)
Definition with_lookup_ok (ok : bool) (ctx : DisplayContext) : DisplayContext :=
  mkDisplayContext (getTime ctx) (getSyncMode ctx)
    (fun frame t =>
       let tf := getTransform ctx frame t in
       mkTransform ok (tf_position tf) (tf_orientation tf))
    (ogre_math ctx).

(** The orientation [q] combined with a rotation by 180 degrees about
    [axis], the rotation on the right ([q * R], as the source writes it) or
    on the left ([R * q]). *)
Definition postmultiplied_about (axis : Vector3) (M : OgreMath) (q : Quaternion)
  : Quaternion :=
  Qmul q (FromAngleAxis M (DegreesToRadians M (f_of_Z 180)) axis).

Definition premultiplied_about (axis : Vector3) (M : OgreMath) (q : Quaternion)
  : Quaternion :=
  Qmul (FromAngleAxis M (DegreesToRadians M (f_of_Z 180)) axis) q.

(** The half angle [FromAngleAxis] passes to [Sin] and [Cos] for
    [Degree(180)]. *)
Definition half_turn (M : OgreMath) : float :=
  (f_lit 1 2 * DegreesToRadians M (f_of_Z 180))%flt.

Definition norm2 (q : Quaternion) : float :=
  (qw q * qw q + qx q * qx q + qy q * qy q + qz q * qz q)%flt.

(** ** Enabling and disabling the display *)

(** The display together with the one piece of state that [onEnable] and
    [onDisable] write besides it: whether the render window is active. *)
Record Plugin := mkPlugin {
  display : CameraPub;
  window_active : bool    (* render_panel_->getRenderWindow()->isActive() *)
}.

(** [CameraPub::onEnable] *)
Definition onEnable (tr : Transport) (p : Plugin) : Plugin :=
  let d := subscribe tr (display p) in
  mkPlugin d true.

(** [CameraPub::onDisable] *)
Definition onDisable (p : Plugin) : Plugin :=
  let p := mkPlugin (display p) false in
  let d := unsubscribe (display p) in
  let d := clear d in
  mkPlugin d (window_active p).

(** ** Sequences of frames *)

(** [publishFrame] called once for each window of [rws], in order: the
    publisher afterwards and everything it did. *)
Definition publish_all (rws : list RenderWindow) (vp : VideoPublisher)
  : VideoPublisher * list Event :=
  fold_left
    (fun acc rw =>
       let '(vp', evs) := publishFrame rw (fst acc) in (vp', snd acc ++ evs))
    rws (vp, []).

(** The frames handed to [pub_.publish] among some events, oldest first. *)
Definition published (evs : list Event) : list Frame :=
  flat_map (fun e => match e with EvPublish f => [f] | _ => [] end) evs.

(** Whether a tick resolves the camera: [texture_.update() || force_render_],
    when [texture_.update()] returns. *)
Definition resolves (r : TextureUpdate) (d : CameraPub) : bool :=
  match r with
  | Updated => true
  | NotUpdated => force_render_ d
  | UnsupportedImageEncoding => false
  end.

(** What [preRenderTargetUpdate] shows of each surface for a given result
    of the last resolve. *)
Definition shows (s : Surface) (ok : bool) (d : CameraPub) : bool :=
  let image_position := image_position_property_ d in
  match s with
  | Background =>
      ok && (String.eqb image_position BACKGROUND || String.eqb image_position BOTH)
  | Overlay =>
      ok && (String.eqb image_position OVERLAY || String.eqb image_position BOTH)
  end.

(** Two states of the display that differ at most in the camera, the
    screen rectangles and the statuses: everything else (texture, camera
    info, flags, surfaces, publisher, subscription, events, the size of
    the panel and its window) is the same. *)
Definition same_outside_resolve (d d' : CameraPub) : Prop :=
  texture_ d' = texture_ d /\ current_caminfo_ d' = current_caminfo_ d
  /\ new_caminfo_ d' = new_caminfo_ d /\ force_render_ d' = force_render_ d
  /\ caminfo_ok_ d' = caminfo_ok_ d
  /\ bg_visible d' = bg_visible d /\ fg_visible d' = fg_visible d
  /\ image_position_property_ d' = image_position_property_ d
  /\ video_publisher_ d' = video_publisher_ d
  /\ isEnabled d' = isEnabled d /\ topic_property_ d' = topic_property_ d
  /\ caminfo_sub_ d' = caminfo_sub_ d /\ events d' = events d
  /\ panel_width (render_panel_ d') = panel_width (render_panel_ d)
  /\ panel_height (render_panel_ d') = panel_height (render_panel_ d)
  /\ getRenderWindow (render_panel_ d') = getRenderWindow (render_panel_ d).

End Model.

Arguments Vector3 : clear implicits.
Arguments Quaternion : clear implicits.
Arguments OgreMath : clear implicits.
Arguments Matrix4 : clear implicits.
Arguments CameraInfo : clear implicits.
Arguments Transform : clear implicits.
Arguments DisplayContext : clear implicits.
Arguments Camera : clear implicits.
Arguments Rectangle2D : clear implicits.
Arguments RenderPanel : clear implicits.
Arguments CameraPub : clear implicits.
Arguments Plugin : clear implicits.

(** ** Concrete hosts and inputs *)

Definition sf (x : spec_float) : binary32 := mk32 x.

(** Single-precision [Math::PI] and the C library's [sinf], [cosf] at the
    one argument the display passes them, half of [Degree(180)] in
    radians; they are left unspecified (NaN) elsewhere. *)
Definition float_pi : binary32 := mk32 (S754_finite false 13176795 (-22)).
Definition float_half_pi : binary32 := mk32 (S754_finite false 13176795 (-23)).
Definition host_math : OgreMath binary32 := {|
  PI := float_pi;
  Sin x := if feqb x float_half_pi then f_of_Z 1 else mk32 S754_nan;
  Cos x := if feqb x float_half_pi
           then mk32 (S754_finite true 12303662 (-48)) else mk32 S754_nan
|}.


(** The pinhole intrinsics [P = [500,0,320,0, 0,500,240,0, 0,0,1,0]]. *)
Definition P_pinhole : vec binary64 12 :=
  vmap d_of_Z [# 500; 0; 320; 0;  0; 500; 240; 0;  0; 0; 1; 0].

Definition origin {float double : Type} {A : Arith float double} : Vector3 float :=
  mkVector3 f0 f0 f0.

(** A display as [onInitialize] leaves it (surfaces hidden, rectangles
    filling the screen, the Ogre camera at its defaults), enabled, with a
    camera info and an image received and a render panel of the given
    size. *)
Definition initialized {float double : Type} {A : Arith float double}
    (info : CameraInfo double) (image : Image) (tex_w tex_h win_w win_h : Z)
  : CameraPub float double := {|
  texture_ := mkTexture (Some image) false tex_w tex_h;
  render_panel_ :=
    mkRenderPanel win_w win_h (mkCamera origin IDENTITY None)
      (mkRenderWindow win_w win_h 3);
  current_caminfo_ := Some info;
  new_caminfo_ := true;
  force_render_ := true;
  caminfo_ok_ := false;
  bg_visible := false;
  fg_visible := false;
  bg_screen_rect_ := mkRectangle2D (f_of_Z (-1)) (f_of_Z 1) (f_of_Z 1) (f_of_Z (-1));
  fg_screen_rect_ := mkRectangle2D (f_of_Z (-1)) (f_of_Z 1) (f_of_Z 1) (f_of_Z (-1));
  image_position_property_ := BOTH;
  video_publisher_ := mkVideoPublisher "rviz_out" 0;
  isEnabled := true;
  topic_property_ := "/camera/image_raw";
  caminfo_sub_ := "/camera/camera_info";
  status_ := ∅;
  events := []
|}.

Definition stamp_1 : Time := mkTime 1 0.
Definition stamp_2 : Time := mkTime 2 0.

Definition image_at (t : Time) (w h : Z) : Image :=
  mkImage (mkHeader t "camera_optical_frame") w h false "rgb8" true.

(** Intrinsics of a pinhole camera with focal lengths [fx = fy = f] and
    the principal point at the image centre [(cx, cy)]. *)
Definition pinhole (w h f cx cy : Z) : CameraInfo binary64 := {|
  info_header := mkHeader stamp_1 "camera_optical_frame";
  height := h;
  width := w;
  D := [];
  K := vmap d_of_Z [# f; 0; cx;  0; f; cy;  0; 0; 1];
  R := vmap d_of_Z [# 1; 0; 0;  0; 1; 0;  0; 0; 1];
  P := vmap d_of_Z [# f; 0; cx; 0;  0; f; cy; 0;  0; 0; 1; 0]
|}.

(** A frame manager in which every lookup yields the pose [(p, q)] and
    reports [ok]. *)
Definition host (mode : SyncMode) (now : Time) (ok : bool)
    (p : Vector3 binary32) (q : Quaternion binary32) : DisplayContext binary32 :=
  mkDisplayContext now mode (fun _ _ => mkTransform ok p q) host_math.

(** What rviz's frame manager leaves in the out-parameters when the
    transform is not available. *)
Definition far_away : Vector3 binary32 :=
  mkVector3 (f_of_Z 9999999) (f_of_Z 9999999) (f_of_Z 9999999).

(** The pinhole display of the end-to-end example. *)
Definition example_display : CameraPub binary32 binary64 :=
  initialized (pinhole 640 480 500 320 240) (image_at stamp_1 640 480) 640 480 640 480.

(** A pose tilted about the Y axis: the unit quaternion (3/5, 0, 4/5, 0),
    in single precision and exactly. *)
Definition tilted : Quaternion binary32 :=
  mkQuaternion (f_lit 3 5) (f_of_Z 0) (f_lit 4 5) (f_of_Z 0).

Definition tilted_exact : Quaternion Qc :=
  mkQuaternion (Q2Qc (3 # 5)) (Q2Qc 0) (Q2Qc (4 # 5)) (Q2Qc 0).

(** Exact sine and cosine at a quarter turn (the value of [PI] plays no
    role in what is proved with it). *)
Definition exact_math : OgreMath Qc :=
  {| PI := Q2Qc (355 # 113); Sin := fun _ => Q2Qc 1; Cos := fun _ => Q2Qc 0 |}.

(** The double nearest to 1.05, the value of the literal in
    [datasize * 1.05]. *)
Definition double_1_05 : spec_float := S754_finite false 4728779608739021 (-52).

(** A camera of 1936x1216 pixels shown in a render panel of the same
    size, and a 720x480 camera shown in a 640x480 panel. *)
Definition wide_display : CameraPub binary32 binary64 :=
  initialized (pinhole 1936 1216 1000 968 608) (image_at stamp_1 1936 1216)
    1936 1216 1936 1216.

Definition ntsc_display : CameraPub binary32 binary64 :=
  initialized (pinhole 720 480 500 360 240) (image_at stamp_1 720 480) 720 480 640 480.

(** Single precision: the largest float below 1, and the two neighbours
    of 8/9. *)
Definition below_one : binary32 := mk32 (S754_finite false 16777215 (-24)).
Definition eight_ninths_up : binary32 := mk32 (S754_finite false 14913082 (-24)).
Definition eight_ninths : binary32 := mk32 (S754_finite false 14913081 (-24)).

(** A camera info whose width is 0 while its height is 480, with a texture
    that has no width to fall back to. *)
Definition no_width_display : CameraPub binary32 binary64 :=
  initialized (pinhole 0 480 500 320 240) (image_at stamp_1 0 480) 0 480 640 480.


(** An image in an encoding [ROSImageTexture::update] does not convert. *)
Definition unsupported_image : Image :=
  mkImage (mkHeader stamp_1 "camera_optical_frame") 640 480 false "yuv422" false.


(** The pinhole intrinsics with P[10] replaced by NaN, and the example
    display holding them. *)
Definition nan_intrinsics : CameraInfo binary64 :=
  let i := pinhole 640 480 500 320 240 in
  mkCameraInfo (info_header i) (height i) (width i) (D i) (K i) (R i)
    (vinsert 10%fin (mk64 S754_nan) (P i)).

Definition nan_display : CameraPub binary32 binary64 :=
  initialized nan_intrinsics (image_at stamp_1 640 480) 640 480 640 480.

(** The example display before any camera info has arrived. *)
Definition no_info_display : CameraPub binary32 binary64 :=
  set_caminfo None example_display.

(** All the doubles [validateFloats] inspects. *)
Definition entries {double : Type} (info : CameraInfo double) : list double :=
  D info ++ vec_to_list (K info) ++ vec_to_list (R info) ++ vec_to_list (P info).

(** Whether a float is one of the two zeros. *)
Definition SFzero (x : spec_float) : bool :=
  match x with S754_zero _ => true | _ => false end.

(** * Properties *)

Section ResolveFacts.
Context {float double : Type} {A : Arith float double}.
Implicit Types (ctx : DisplayContext float) (d : CameraPub float double).
Implicit Types (info : CameraInfo double) (image : Image) (r : Rejection).

Lemma updateCamera_rejected ctx d r :
  rejection ctx d = Some r -> updateCamera ctx d = (false, rejected r ctx d).
Proof.
  unfold rejection, updateCamera, sync_mismatch, resolved_position,
    resolved_orientation, looked_up.
  destruct (current_caminfo_ d) as [info|]; [|intros [= <-]; reflexivity].
  destruct (getImage (texture_ d)) as [image|]; [|intros [= <-]; reflexivity].
  destruct (negb (validateFloats info)); [intros [= <-]; reflexivity|].
  destruct (_ && _); [intros [= <-]; reflexivity|].
  destruct (image_size info (texture_ d)) as [img_width img_height].
  destruct (size_undetermined img_width img_height); [intros [= <-]; reflexivity|].
  destruct (zoom_factors _ _ _ _ _ _) as [zoom_x zoom_y].
  destruct (negb (validateFloats_Vector3 _)); [intros [= <-]; reflexivity|].
  discriminate.
Qed.

Lemma updateCamera_committed ctx d :
  rejection ctx d = None ->
  exists info image,
    current_caminfo_ d = Some info /\ getImage (texture_ d) = Some image /\
    updateCamera ctx d = (true, committed ctx info image d).
Proof.
  unfold rejection, updateCamera, committed, sync_mismatch, resolved_projection,
    resolved_zoom, resolved_position, resolved_orientation, looked_up.
  destruct (current_caminfo_ d) as [info|]; [|discriminate].
  destruct (getImage (texture_ d)) as [image|]; [|discriminate].
  destruct (negb (validateFloats info)); [discriminate|].
  destruct (_ && _); [discriminate|].
  destruct (image_size info (texture_ d)) as [img_width img_height] eqn:Hsize.
  destruct (size_undetermined img_width img_height); [discriminate|].
  destruct (negb (validateFloats_Vector3 _)); [discriminate|].
  intros _. exists info, image. repeat split.
  cbn [texture_ set_camera]. rewrite Hsize.
  destruct (zoom_factors _ _ _ _ _ _) as [zoom_x zoom_y]. reflexivity.
Qed.
End ResolveFacts.

Section Atomicity.
Context {float double : Type} {A : Arith float double}.
Implicit Types (ctx : DisplayContext float) (d : CameraPub float double).
Implicit Types (info : CameraInfo double) (image : Image) (r : Rejection).

Lemma rejected_keeps_camera r ctx d :
  getCamera (render_panel_ (rejected r ctx d)) = getCamera (render_panel_ d)
  /\ bg_screen_rect_ (rejected r ctx d) = bg_screen_rect_ d
  /\ fg_screen_rect_ (rejected r ctx d) = fg_screen_rect_ d.
Proof. destruct r; repeat split. Qed.

Lemma committed_camera ctx info image d :
  getCamera (render_panel_ (committed ctx info image d))
  = mkCamera (resolved_position ctx info image) (resolved_orientation ctx image)
      (Some (resolved_projection info d)).
Proof. unfold committed. destruct (resolved_zoom info d). reflexivity. Qed.

Lemma committed_rects ctx info image d :
  bg_screen_rect_ (committed ctx info image d)
  = zoomed_rect (fst (resolved_zoom info d)) (snd (resolved_zoom info d))
  /\ fg_screen_rect_ (committed ctx info image d)
     = zoomed_rect (fst (resolved_zoom info d)) (snd (resolved_zoom info d)).
Proof. unfold committed. destruct (resolved_zoom info d). split; reflexivity. Qed.

(** C4.  A resolve is all or nothing.  When [updateCamera] returns false,
    whichever of the five early returns it took, the camera (position,
    orientation, projection matrix) and the corners of both screen
    rectangles are what they were.  When it returns true, no check
    rejected, and position, orientation and projection matrix were all
    written by this call, together with the corners of both rectangles. *)
Theorem updateCamera_atomic ctx d :
  let '(ok, d') := updateCamera ctx d in
  if ok then
    rejection ctx d = None /\
    exists info image,
      current_caminfo_ d = Some info /\ getImage (texture_ d) = Some image /\
      cam_position (getCamera (render_panel_ d')) = resolved_position ctx info image /\
      cam_orientation (getCamera (render_panel_ d')) = resolved_orientation ctx image /\
      cam_custom_projection (getCamera (render_panel_ d'))
        = Some (resolved_projection info d) /\
      bg_screen_rect_ d'
        = zoomed_rect (fst (resolved_zoom info d)) (snd (resolved_zoom info d)) /\
      fg_screen_rect_ d' = bg_screen_rect_ d'
  else
    (exists r, rejection ctx d = Some r /\ d' = rejected r ctx d) /\
    getCamera (render_panel_ d') = getCamera (render_panel_ d) /\
    bg_screen_rect_ d' = bg_screen_rect_ d /\
    fg_screen_rect_ d' = fg_screen_rect_ d.
Proof.
  destruct (rejection ctx d) as [r|] eqn:Hr.
  - rewrite (updateCamera_rejected ctx d r Hr).
    split; [exists r; split; reflexivity | apply rejected_keeps_camera].
  - destruct (updateCamera_committed ctx d Hr) as (info & image & Hi & Him & ->).
    split; [reflexivity|]. exists info, image.
    rewrite committed_camera. destruct (committed_rects ctx info image d) as [Hbg Hfg].
    rewrite Hbg, Hfg. repeat split; assumption.
Qed.
End Atomicity.

(** ** The end-to-end example, in IEEE arithmetic *)

(** C1.  Intrinsics 640x480 with P = [500,0,320,0, 0,500,240,0, 0,0,1,0]
    (and any finite D, K, R), a lookup that yields the identity pose at the
    origin, a 640x480 render panel and a passed sync check: the resolve
    succeeds, both zoom factors are exactly 1 (so the rectangles keep their
    corners -1, 1, 1, -1), the projection matrix entries [0][2] and [1][2]
    are exactly 0, and the camera is placed at the pose's position: the
    baseline terms add nothing. *)
Theorem updateCamera_end_to_end
    (ctx : DisplayContext binary32) (d : CameraPub binary32 binary64)
    (info : CameraInfo binary64) (image : Image) :
  current_caminfo_ d = Some info -> getImage (texture_ d) = Some image ->
  width info = 640 -> height info = 480 -> P info = P_pinhole ->
  validateFloats info = true ->
  sync_mismatch ctx image = false ->
  ogre_math ctx = host_math ->
  tf_position (looked_up ctx image) = origin ->
  tf_orientation (looked_up ctx image) = IDENTITY ->
  panel_width (render_panel_ d) = 640 -> panel_height (render_panel_ d) = 480 ->
  exists d' m,
    updateCamera ctx d = (true, d') /\
    zoom_factors (f_of_Z 640) (f_of_Z 480) (d_of_Z 500) (d_of_Z 500)
      (f_of_Z 640) (f_of_Z 480) = (f_of_Z 1, f_of_Z 1) /\
    bg_screen_rect_ d' = zoomed_rect (f_of_Z 1) (f_of_Z 1) /\
    fg_screen_rect_ d' = zoomed_rect (f_of_Z 1) (f_of_Z 1) /\
    cam_custom_projection (getCamera (render_panel_ d')) = Some m /\
    mget m 0%fin 2%fin = f_of_Z 0 /\ mget m 1%fin 2%fin = f_of_Z 0 /\
    cam_position (getCamera (render_panel_ d')) = tf_position (looked_up ctx image).
Proof.
  intros Hi Him Hw Hh HP Hv Hs Hm Hp Ho Hpw Hph.
  assert (Hsize : image_size info (texture_ d) = (f_of_Z 640, f_of_Z 480)).
  { unfold image_size. rewrite Hw, Hh. reflexivity. }
  assert (Hpos : resolved_position ctx info image = origin).
  { unfold resolved_position, resolved_orientation. rewrite Hp, Ho, Hm.
    unfold baseline_position. rewrite HP. vm_compute. reflexivity. }
  assert (Hzoom : resolved_zoom info d = (f_of_Z 1, f_of_Z 1)).
  { unfold resolved_zoom. rewrite Hsize, HP, Hpw, Hph. vm_compute. reflexivity. }
  assert (Hrej : rejection ctx d = None).
  { unfold rejection. rewrite Hi, Him, Hv, Hs, Hsize, Hpos. vm_compute. reflexivity. }
  destruct (updateCamera_committed ctx d Hrej) as (info' & image' & Hi' & Him' & Hup).
  rewrite Hi in Hi'. rewrite Him in Him'. injection Hi' as <-. injection Him' as <-.
  exists (committed ctx info image d), (resolved_projection info d).
  split; [exact Hup|].
  split; [vm_compute; reflexivity|].
  destruct (committed_rects ctx info image d) as [-> ->]. rewrite Hzoom.
  rewrite committed_camera. cbn [cam_custom_projection cam_position fst snd].
  assert (Hproj : resolved_projection info d
                  = projection_matrix info (f_of_Z 640) (f_of_Z 480) (f_of_Z 1) (f_of_Z 1)).
  { unfold resolved_projection. rewrite Hsize, Hzoom. reflexivity. }
  rewrite Hproj, Hpos, Hp. unfold projection_matrix. rewrite HP.
  repeat split; vm_compute; reflexivity.
Qed.

Lemma updateCamera_end_to_end_witness :
  exists d' m,
    updateCamera (host SyncApprox stamp_2 true origin IDENTITY)
      (initialized (pinhole 640 480 500 320 240) (image_at stamp_1 640 480)
         640 480 640 480) = (true, d') /\
    zoom_factors (f_of_Z 640) (f_of_Z 480) (d_of_Z 500) (d_of_Z 500)
      (f_of_Z 640) (f_of_Z 480) = (f_of_Z 1, f_of_Z 1) /\
    bg_screen_rect_ d' = zoomed_rect (f_of_Z 1) (f_of_Z 1) /\
    fg_screen_rect_ d' = zoomed_rect (f_of_Z 1) (f_of_Z 1) /\
    cam_custom_projection (getCamera (render_panel_ d')) = Some m /\
    mget m 0%fin 2%fin = f_of_Z 0 /\ mget m 1%fin 2%fin = f_of_Z 0 /\
    cam_position (getCamera (render_panel_ d')) = origin.
Proof.
  apply (updateCamera_end_to_end
           (host SyncApprox stamp_2 true origin IDENTITY)
           (initialized (pinhole 640 480 500 320 240) (image_at stamp_1 640 480)
              640 480 640 480)
           (pinhole 640 480 500 320 240) (image_at stamp_1 640 480));
    reflexivity.
Defined.

(** ** The sync check and the pose lookup *)

Lemma Time_eqb_eq (a b : Time) : Time_eqb a b = true <-> a = b.
Proof.
  destruct a as [s1 n1], b as [s2 n2]. unfold Time_eqb; cbn.
  rewrite andb_true_iff, !Z.eqb_eq. split.
  - intros [-> ->]; reflexivity.
  - intros [= -> ->]; split; reflexivity.
Qed.

Lemma SyncMode_eqb_eq (a b : SyncMode) : SyncMode_eqb a b = true <-> a = b.
Proof. destruct a, b; cbn; split; (discriminate || reflexivity). Qed.

Section SyncAndLookup.
Context {float double : Type} {A : Arith float double}.
Implicit Types (ctx : DisplayContext float) (d : CameraPub float double).
Implicit Types (info : CameraInfo double) (image : Image) (r : Rejection).

(** [updateCamera] is determined by [rejection], [rejected] and
    [committed]. *)
Lemma updateCamera_congr ctx ctx' d :
  rejection ctx' d = rejection ctx d ->
  (forall r, rejection ctx d = Some r -> rejected r ctx' d = rejected r ctx d) ->
  (forall info image, committed ctx' info image d = committed ctx info image d) ->
  updateCamera ctx' d = updateCamera ctx d.
Proof.
  intros Hrej Hr Hc. destruct (rejection ctx d) as [r|] eqn:E.
  - rewrite (updateCamera_rejected ctx d r E), (updateCamera_rejected ctx' d r Hrej).
    rewrite (Hr r eq_refl). reflexivity.
  - destruct (updateCamera_committed ctx d E) as (info & image & Hi & Him & ->).
    destruct (updateCamera_committed ctx' d Hrej) as (info' & image' & Hi' & Him' & ->).
    rewrite Hi in Hi'. rewrite Him in Him'. injection Hi' as <-. injection Him' as <-.
    rewrite Hc. reflexivity.
Qed.

Lemma sync_mismatch_exact ctx image :
  getSyncMode ctx = SyncExact ->
  sync_mismatch ctx image = negb (Time_eqb (getTime ctx) (stamp (image_header image))).
Proof. unfold sync_mismatch. intros ->. reflexivity. Qed.

Lemma sync_mismatch_other ctx image :
  getSyncMode ctx <> SyncExact -> sync_mismatch ctx image = false.
Proof.
  unfold sync_mismatch. intros H.
  destruct (SyncMode_eqb (getSyncMode ctx) SyncExact) eqn:E; [|reflexivity].
  apply SyncMode_eqb_eq in E. contradiction.
Qed.

(** C6 (as amended).  With an image at hand (stamp T2) and the frame
    manager's time T1.  In exact mode with T1 <> T2 [updateCamera] returns
    false, and what it reports follows the order of its checks: with no
    camera info it returns silently; with a camera info that has a NaN or
    an infinity it sets Error on "Camera Info" and leaves "Time" as it
    was; with a camera info whose floats are finite it reaches the sync
    check and sets Warn on "Time" and nothing else.  So the resolve is
    rejected by the sync check exactly when a camera info with finite
    floats is there, the mode is exact and T1 <> T2.  In exact mode with
    T1 = T2 the resolve goes on exactly as it would in approximate mode;
    outside exact mode the frame manager's time has no influence on the
    resolve at all. *)
Theorem exact_sync_check ctx d image :
  getImage (texture_ d) = Some image ->
  (getSyncMode ctx = SyncExact -> getTime ctx <> stamp (image_header image) ->
     fst (updateCamera ctx d) = false /\
     (forall info, current_caminfo_ d = Some info -> validateFloats info = true ->
        updateCamera ctx d
        = (false, setStatus Warn "Time" (NoImageAtTimestamp (getTime ctx)) d) /\
        status_ (snd (updateCamera ctx d)) !! "Time"
        = Some (Warn, NoImageAtTimestamp (getTime ctx))) /\
     (forall info, current_caminfo_ d = Some info -> validateFloats info = false ->
        updateCamera ctx d
        = (false, setStatus Error "Camera Info" msg_invalid_floats d) /\
        status_ (snd (updateCamera ctx d)) !! "Time" = status_ d !! "Time") /\
     (current_caminfo_ d = None -> updateCamera ctx d = (false, d)))
  /\ (rejection ctx d = Some SyncMismatch
        <-> (exists info, current_caminfo_ d = Some info /\ validateFloats info = true)
            /\ getSyncMode ctx = SyncExact
            /\ getTime ctx <> stamp (image_header image))
  /\ (getSyncMode ctx = SyncExact -> getTime ctx = stamp (image_header image) ->
        rejection ctx d <> Some SyncMismatch /\
        updateCamera ctx d = updateCamera (with_sync SyncApprox ctx) d)
  /\ (getSyncMode ctx <> SyncExact ->
        rejection ctx d <> Some SyncMismatch /\
        forall t, updateCamera (with_time t ctx) d = updateCamera ctx d).
Proof.
  intros Him.
  assert (Hiff : rejection ctx d = Some SyncMismatch
                 <-> (exists info, current_caminfo_ d = Some info
                                   /\ validateFloats info = true)
                     /\ getSyncMode ctx = SyncExact
                     /\ getTime ctx <> stamp (image_header image)).
  { assert (Hsm : sync_mismatch ctx image = true
                  <-> getSyncMode ctx = SyncExact
                      /\ getTime ctx <> stamp (image_header image)).
    { unfold sync_mismatch. rewrite andb_true_iff, negb_true_iff, SyncMode_eqb_eq.
      split; intros [H1 H2]; (split; [exact H1|]).
      - intros E. apply Time_eqb_eq in E. congruence.
      - destruct (Time_eqb _ _) eqn:E; [|reflexivity].
        apply Time_eqb_eq in E. contradiction. }
    unfold rejection. rewrite Him.
    destruct (current_caminfo_ d) as [info|].
    - destruct (validateFloats info) eqn:Hv; cbn [negb].
      + destruct (sync_mismatch ctx image) eqn:Hs.
        * split; [|reflexivity]. intros _. split; [exists info; auto|]. apply Hsm. reflexivity.
        * split.
          -- destruct (image_size _ _). destruct (size_undetermined _ _); [discriminate|].
             destruct (negb _); discriminate.
          -- intros (_ & H). apply Hsm in H. discriminate.
      + split; [discriminate|]. intros ((info' & [= <-] & H) & _). congruence.
    - split; [discriminate|]. intros ((info' & H & _) & _). discriminate. }
  split; [|split; [exact Hiff|split]].
  - intros Hmode Hne.
    assert (Hs : sync_mismatch ctx image = true).
    { rewrite sync_mismatch_exact by assumption.
      destruct (Time_eqb _ _) eqn:E; [|reflexivity].
      apply Time_eqb_eq in E. contradiction. }
    assert (Hrej : exists r, rejection ctx d = Some r /\
              (forall info, current_caminfo_ d = Some info ->
                 validateFloats info = true -> r = SyncMismatch) /\
              (forall info, current_caminfo_ d = Some info ->
                 validateFloats info = false -> r = InvalidFloats) /\
              (current_caminfo_ d = None -> r = NoInput)).
    { unfold rejection. rewrite Him.
      destruct (current_caminfo_ d) as [info|].
      - destruct (validateFloats info) eqn:Hv; cbn [negb].
        + rewrite Hs. eexists; split; [reflexivity|].
          split; [reflexivity|]. split; [|discriminate]. intros ? [= <-]. congruence.
        + eexists; split; [reflexivity|].
          split; [|split; [reflexivity|discriminate]]. intros ? [= <-]. congruence.
      - eexists; split; [reflexivity|].
        split; [discriminate|]. split; [discriminate|reflexivity]. }
    destruct Hrej as (r & Hr & Hsync & Hinv & Hnone).
    rewrite (updateCamera_rejected ctx d r Hr). split; [reflexivity|].
    split; [|split].
    + intros info Hi Hv. rewrite (Hsync info Hi Hv). cbn [rejected snd].
      split; [reflexivity|]. cbn. apply lookup_insert_eq.
    + intros info Hi Hv. rewrite (Hinv info Hi Hv). cbn [rejected snd].
      split; [reflexivity|]. cbn. apply lookup_insert_ne. discriminate.
    + intros Hi. rewrite (Hnone Hi). reflexivity.
  - intros Hmode Heq.
    assert (Hs : sync_mismatch ctx image = false).
    { rewrite sync_mismatch_exact by assumption.
      rewrite (proj2 (Time_eqb_eq _ _) Heq). reflexivity. }
    assert (Hrej : rejection (with_sync SyncApprox ctx) d = rejection ctx d).
    { unfold rejection. rewrite Him.
      destruct (current_caminfo_ d) as [info|]; [|reflexivity].
      rewrite Hs. reflexivity. }
    split.
    + intros H. apply Hiff in H. destruct H as (_ & _ & H). contradiction.
    + symmetry. apply updateCamera_congr; [exact Hrej| |reflexivity].
      intros r _. destruct r; reflexivity.
  - intros Hmode.
    assert (Hs : forall c : DisplayContext float,
               getSyncMode c = getSyncMode ctx -> sync_mismatch c image = false).
    { intros c Hc. apply sync_mismatch_other. rewrite Hc. exact Hmode. }
    assert (Hno : rejection ctx d <> Some SyncMismatch).
    { intros H. apply Hiff in H. destruct H as (_ & H & _). contradiction. }
    split; [exact Hno|]. intros t.
    apply updateCamera_congr; [| |reflexivity].
    + unfold rejection. rewrite Him.
      destruct (current_caminfo_ d) as [info|]; [|reflexivity].
      rewrite (Hs ctx eq_refl), (Hs (with_time t ctx) eq_refl). reflexivity.
    + intros r Hr. destruct r; try reflexivity. contradiction.
Qed.

(** C7 (as amended).  [updateCamera] never reads the boolean that
    [getTransform] returns: a lookup that reports failure is resolved
    exactly like one that reports success and leaves the same position and
    orientation behind.  No skip, no status of any level, is tied to the
    lookup's outcome. *)
Theorem lookup_result_ignored (ok : bool) ctx d :
  updateCamera (with_lookup_ok ok ctx) d = updateCamera ctx d.
Proof. apply updateCamera_congr; [reflexivity | intros r _; destruct r; reflexivity | reflexivity]. Qed.
End SyncAndLookup.

Lemma exact_sync_check_witness :
  updateCamera (host SyncExact stamp_2 true origin IDENTITY) example_display
  = (false, setStatus Warn "Time" (NoImageAtTimestamp stamp_2) example_display)
  /\ updateCamera (host SyncExact stamp_1 true origin IDENTITY) example_display
     = updateCamera (with_sync SyncApprox (host SyncExact stamp_1 true origin IDENTITY))
         example_display
  /\ updateCamera (with_time stamp_1 (host SyncApprox stamp_2 true origin IDENTITY))
       example_display
     = updateCamera (host SyncApprox stamp_2 true origin IDENTITY) example_display.
Proof.
  destruct (exact_sync_check (host SyncExact stamp_2 true origin IDENTITY)
              example_display (image_at stamp_1 640 480) eq_refl) as (Hne & _ & _ & _).
  destruct (exact_sync_check (host SyncExact stamp_1 true origin IDENTITY)
              example_display (image_at stamp_1 640 480) eq_refl) as (_ & _ & Heq & _).
  destruct (exact_sync_check (host SyncApprox stamp_2 true origin IDENTITY)
              example_display (image_at stamp_1 640 480) eq_refl) as (_ & _ & _ & Happ).
  split; [|split].
  - destruct (Hne eq_refl) as (_ & H & _); [discriminate|].
    apply (H (pinhole 640 480 500 320 240)); reflexivity.
  - apply Heq; reflexivity.
  - apply Happ. discriminate.
Defined.

(** C6, the claim as stated fails: in exact mode with T1 <> T2 and an
    image at hand, a camera info with P[10] = NaN is rejected by the
    earlier float check: [updateCamera] returns false with Error on
    "Camera Info" and no status on "Time"; and with no camera info at all
    it returns false without setting any status. *)
Lemma sync_mismatch_without_time_warning :
  let ctx := host SyncExact stamp_2 true origin IDENTITY in
  let image := image_at stamp_1 640 480 in
  getSyncMode ctx = SyncExact
  /\ getTime ctx <> stamp (image_header image)
  /\ getImage (texture_ nan_display) = Some image
  /\ fst (updateCamera ctx nan_display) = false
  /\ status_ (snd (updateCamera ctx nan_display)) !! "Time" = None
  /\ status_ (snd (updateCamera ctx nan_display)) !! "Camera Info"
     = Some (Error, msg_invalid_floats)
  /\ getImage (texture_ no_info_display) = Some image
  /\ updateCamera ctx no_info_display = (false, no_info_display)
  /\ status_ no_info_display !! "Time" = None.
Proof.
  cbv zeta.
  assert (Hn : rejection (host SyncExact stamp_2 true origin IDENTITY) nan_display
               = Some InvalidFloats) by (vm_compute; reflexivity).
  assert (Hi : rejection (host SyncExact stamp_2 true origin IDENTITY) no_info_display
               = Some NoInput) by reflexivity.
  rewrite (updateCamera_rejected _ _ _ Hn), (updateCamera_rejected _ _ _ Hi).
  cbn [fst snd rejected].
  split; [reflexivity|]. split; [discriminate|]. split; [reflexivity|].
  split; [reflexivity|]. split; [reflexivity|]. split; [apply lookup_insert_eq|].
  split; [reflexivity|]. split; reflexivity.
Qed.

(** C7, the claim as stated fails: the lookup reports failure and leaves
    rviz's far-away position behind, yet the resolve is not skipped.
    [updateCamera] returns true, moves the camera there, installs the
    projection matrix, and the only statuses it sets are Ok. *)
Lemma lookup_failure_not_skipped :
  let ctx := host SyncApprox stamp_2 false far_away IDENTITY in
  let r := updateCamera ctx example_display in
  lookup_ok (looked_up ctx (image_at stamp_1 640 480)) = false
  /\ fst r = true
  /\ cam_position (getCamera (render_panel_ (snd r))) = far_away
  /\ cam_custom_projection (getCamera (render_panel_ (snd r))) <> None
  /\ status_ (snd r) = {[ "Camera Info" := (Ok, Text "ok"); "Time" := (Ok, Text "ok") ]}.
Proof.
  cbv zeta.
  assert (Hrej : rejection (host SyncApprox stamp_2 false far_away IDENTITY)
                   example_display = None) by (vm_compute; reflexivity).
  destruct (updateCamera_committed _ _ Hrej) as (info & image & Hi & Him & ->).
  injection Hi as <-. injection Him as <-.
  cbn [fst snd]. rewrite committed_camera. cbn [cam_position cam_custom_projection].
  split; [reflexivity|]. split; [reflexivity|].
  split; [vm_compute; reflexivity|]. split; [discriminate|].
  unfold committed. destruct (resolved_zoom _ _). cbn.
  apply map_eq. intros k. rewrite !lookup_insert, lookup_singleton.
  repeat case_decide; try congruence. apply lookup_empty.
Qed.

(** ** Render-pass bracketing and the published stream *)

Section RenderPass.
Context {float double : Type} {A : Arith float double}.
Implicit Types (ctx : DisplayContext float) (d : CameraPub float double).

Lemma publish_keeps_visibility (m : VideoPublisher -> VideoPublisher * list Event) d :
  bg_visible (with_publisher m d) = bg_visible d
  /\ fg_visible (with_publisher m d) = fg_visible d.
Proof. unfold with_publisher. destruct (m (video_publisher_ d)). split; reflexivity. Qed.

Lemma publish_events (m : VideoPublisher -> VideoPublisher * list Event) d :
  events (with_publisher m d) = events d ++ snd (m (video_publisher_ d)).
Proof. unfold with_publisher. destruct (m (video_publisher_ d)). reflexivity. Qed.

Lemma postRender_hidden d :
  bg_visible (postRenderTargetUpdate d) = false
  /\ fg_visible (postRenderTargetUpdate d) = false.
Proof.
  unfold postRenderTargetUpdate.
  destruct (publish_keeps_visibility
              (publishFrame (getRenderWindow (render_panel_
                 (setVisible Overlay false (setVisible Background false d)))))
              (setVisible Overlay false (setVisible Background false d))) as [-> ->].
  split; reflexivity.
Qed.

(** C8.  At the start of a pass the background surface is made visible
    iff [caminfo_ok_] (the result of the last resolve) holds and the mode
    is "background" or "background and overlay", and the overlay surface
    iff [caminfo_ok_] holds and the mode is "overlay" or "background and
    overlay".  At the end of a pass both surfaces are hidden whatever the
    state and the mode, and only after that does the publisher run: the
    events of [postRenderTargetUpdate] are the two setVisible(false) calls
    followed by whatever [publishFrame] does.  So a whole pass, and a whole
    update tick, always ends with both surfaces hidden. *)
Theorem render_pass_bracketing ctx d :
  let mode := image_position_property_ d in
  (bg_visible (preRenderTargetUpdate d) = true
     <-> caminfo_ok_ d = true /\ (mode = BACKGROUND \/ mode = BOTH))
  /\ (fg_visible (preRenderTargetUpdate d) = true
        <-> caminfo_ok_ d = true /\ (mode = OVERLAY \/ mode = BOTH))
  /\ bg_visible (postRenderTargetUpdate d) = false
  /\ fg_visible (postRenderTargetUpdate d) = false
  /\ events (postRenderTargetUpdate d)
     = events d ++ [EvSetVisible Background false; EvSetVisible Overlay false]
         ++ snd (publishFrame (getRenderWindow (render_panel_ d)) (video_publisher_ d))
  /\ bg_visible (RenderWindow_update d) = false
  /\ fg_visible (RenderWindow_update d) = false
  /\ bg_visible (update ctx d) = false
  /\ fg_visible (update ctx d) = false.
Proof.
  cbv zeta.
  assert (Hpost := postRender_hidden).
  split; [|split; [|split; [|split; [|split; [|split; [|split; [|split]]]]]]].
  - cbn. rewrite andb_true_iff, orb_true_iff, !String.eqb_eq. reflexivity.
  - cbn. rewrite andb_true_iff, orb_true_iff, !String.eqb_eq. reflexivity.
  - apply Hpost.
  - apply Hpost.
  - unfold postRenderTargetUpdate. rewrite publish_events. cbn.
    rewrite <- !app_assoc. reflexivity.
  - apply Hpost.
  - apply Hpost.
  - unfold update. destruct (texture_update (texture_ d)). apply Hpost.
  - unfold update. destruct (texture_update (texture_ d)). apply Hpost.
Qed.

(** The flag the pass reads is the result of the tick's resolve, whenever
    the tick resolves. *)
Lemma update_records_resolve ctx d :
  match texture_update (texture_ d) with
  | (UnsupportedImageEncoding, _) => True
  | (r, t) =>
      (r = Updated \/ force_render_ d = true) ->
      exists d1, update ctx d = RenderWindow_update d1
                 /\ caminfo_ok_ d1 = fst (updateCamera ctx (set_texture t d))
                 /\ force_render_ d1 = false
  end.
Proof.
  unfold update. destruct (texture_update (texture_ d)) as [r t].
  destruct r; [| |exact I]; intros H.
  - cbn [orb]. destruct (updateCamera ctx (set_texture t d)) as [ok d'].
    eexists. split; [reflexivity|]. split; reflexivity.
  - destruct H as [H|H]; [discriminate|]. cbn [set_texture force_render_]. rewrite H.
    cbn [orb]. destruct (updateCamera ctx (set_texture t d)) as [ok d'].
    eexists. split; [reflexivity|]. split; reflexivity.
Qed.

(** C10.  A [subscribe] that proceeds (display enabled, image topic not
    empty) advertises the stream on "rviz_out": that is the publisher's
    topic afterwards and the last thing the call does, whatever the
    configured topic and whether or not the camera-info subscription
    throws. *)
Theorem subscribe_advertises_rviz_out (tr : Transport) d :
  isEnabled d = true -> topic_property_ d <> "" ->
  pub_topic (video_publisher_ (subscribe tr d)) = "rviz_out"
  /\ events (subscribe tr d) = events d ++ [EvAdvertise "rviz_out"].
Proof.
  intros He Ht. unfold subscribe. rewrite He. cbn [negb orb].
  destruct (String.eqb (topic_property_ d) "") eqn:E.
  - apply String.eqb_eq in E. contradiction.
  - destruct (subscribe_throws tr _); split; reflexivity.
Qed.
End RenderPass.

Lemma subscribe_advertises_rviz_out_witness :
  pub_topic (video_publisher_
               (subscribe (mkTransport (fun _ => "/camera/camera_info") (fun _ => None))
                  example_display)) = "rviz_out"
  /\ events (subscribe (mkTransport (fun _ => "/camera/camera_info") (fun _ => None))
               example_display)
     = events example_display ++ [EvAdvertise "rviz_out"].
Proof.
  apply (subscribe_advertises_rviz_out
           (mkTransport (fun _ => "/camera/camera_info") (fun _ => None)) example_display);
    [reflexivity | discriminate].
Defined.

(** ** The orientation of the virtual camera *)

Lemma Qc_of_Z_0 : Qc_of_Z 0 = 0%Qc.
Proof. reflexivity. Qed.

Lemma Qc_of_Z_1 : Qc_of_Z 1 = 1%Qc.
Proof. reflexivity. Qed.

Lemma Qc_of_Z_2 : Qc_of_Z 2 = (1 + 1)%Qc.
Proof. apply Qc_is_canon. reflexivity. Qed.

Lemma Qc_of_Z_m1 : Qc_of_Z (-1) = (- (1))%Qc.
Proof. apply Qc_is_canon. reflexivity. Qed.

(** Equality modulo [n = 1]: it is enough that the difference is a
    multiple of [n - 1]. *)
Lemma Qc_eq_mod (a b c n : Qc) : (a - b = c * (n - 1))%Qc -> n = 1%Qc -> a = b.
Proof.
  intros H ->. replace (1 - 1)%Qc with 0%Qc in H by ring.
  rewrite Qcmult_0_r in H.
  replace a with ((a - b) + b)%Qc by ring. rewrite H. ring.
Qed.

Section ExactOrientation.
#[local] Existing Instance Exact.

(** In exact arithmetic, with the sine 1 and the cosine 0 of a quarter
    turn: multiplying a unit orientation on the right by the half turn
    about X keeps where the local X axis points and reverses where the
    local Y and Z axes point. *)
Lemma half_turn_about_x_flips_y_z (M : OgreMath Qc) (q : Quaternion Qc) :
  Sin M (half_turn M) = 1%Qc -> Cos M (half_turn M) = 0%Qc -> norm2 q = 1%Qc ->
  Qrotate (vision_to_ogre M q) UNIT_X = Qrotate q UNIT_X
  /\ Qrotate (vision_to_ogre M q) UNIT_Y = Vscale (Qrotate q UNIT_Y) (f_of_Z (-1))
  /\ Qrotate (vision_to_ogre M q) UNIT_Z = Vscale (Qrotate q UNIT_Z) (f_of_Z (-1)).
Proof.
  intros Hs Hc Hn. destruct q as [w x y z]. unfold norm2 in Hn. cbn in Hn.
  unfold vision_to_ogre, FromAngleAxis. fold (half_turn M). rewrite Hs, Hc.
  unfold Qrotate, Qmul, Vadd, Vscale, crossProduct, UNIT_X, UNIT_Y, UNIT_Z, f0, f1, f2.
  cbn [fadd fsub fmul Exact f_of_Z qw qx qy qz vx vy vz].
  rewrite ?Qc_of_Z_0, ?Qc_of_Z_1, ?Qc_of_Z_2, ?Qc_of_Z_m1.
  split; [|split].
  - f_equal; ring.
  - f_equal.
    + ring.
    + apply (Qc_eq_mod _ _ (- (1+1)) (w*w+x*x+y*y+z*z)); [ring|exact Hn].
    + ring.
  - f_equal.
    + ring.
    + ring.
    + apply (Qc_eq_mod _ _ (- (1+1)) (w*w+x*x+y*y+z*z)); [ring|exact Hn].
Qed.
End ExactOrientation.

(** C3 (as amended).  In every accepted resolve the orientation given to
    the camera is the looked-up orientation multiplied ON THE RIGHT by the
    fixed rotation [Quaternion(Degree(180), UNIT_X)], a half turn about
    the X axis, and the baseline translation is computed from that product.
    In exact arithmetic, for a unit orientation, this keeps the local X axis
    and reverses the local Y and Z axes: what looked along +Z (forward)
    now has +Z pointing back out of the screen. *)
Theorem orientation_post_multiplied_about_x :
  (forall (float double : Type) (A : Arith float double)
          (ctx : DisplayContext float) (d d' : CameraPub float double),
      updateCamera ctx d = (true, d') ->
      exists info image,
        current_caminfo_ d = Some info /\ getImage (texture_ d) = Some image /\
        let q := postmultiplied_about UNIT_X (ogre_math ctx)
                   (tf_orientation (looked_up ctx image)) in
        cam_orientation (getCamera (render_panel_ d')) = q /\
        cam_position (getCamera (render_panel_ d'))
        = baseline_position info (tf_position (looked_up ctx image)) q)
  /\ (forall (M : OgreMath Qc) (q : Quaternion Qc),
        @Sin Qc M (@half_turn Qc Qc Exact M) = 1%Qc ->
        @Cos Qc M (@half_turn Qc Qc Exact M) = 0%Qc ->
        @norm2 Qc Qc Exact q = 1%Qc ->
        let q' := @postmultiplied_about Qc Qc Exact (@UNIT_X Qc Qc Exact) M q in
        let rot := @Qrotate Qc Qc Exact in
        let opposite v := @Vscale Qc Qc Exact v (Qc_of_Z (-1)) in
        rot q' (@UNIT_X Qc Qc Exact) = rot q (@UNIT_X Qc Qc Exact)
        /\ rot q' (@UNIT_Y Qc Qc Exact) = opposite (rot q (@UNIT_Y Qc Qc Exact))
        /\ rot q' (@UNIT_Z Qc Qc Exact) = opposite (rot q (@UNIT_Z Qc Qc Exact))).
Proof.
  split.
  - intros float double A ctx d d' Hup.
    destruct (rejection ctx d) as [r|] eqn:Hr.
    + rewrite (updateCamera_rejected ctx d r Hr) in Hup. discriminate.
    + destruct (updateCamera_committed ctx d Hr) as (info & image & Hi & Him & Hc).
      rewrite Hc in Hup. injection Hup as <-.
      exists info, image. rewrite committed_camera. repeat split; assumption.
  - intros M q Hs Hc Hn. exact (half_turn_about_x_flips_y_z M q Hs Hc Hn).
Qed.

Lemma orientation_post_multiplied_about_x_witness :
  (exists d', updateCamera (host SyncApprox stamp_2 true origin tilted) example_display
              = (true, d')
              /\ cam_orientation (getCamera (render_panel_ d'))
                 = postmultiplied_about UNIT_X host_math tilted)
  /\ @Qrotate Qc Qc Exact
       (@postmultiplied_about Qc Qc Exact (@UNIT_X Qc Qc Exact) exact_math tilted_exact)
       (@UNIT_Z Qc Qc Exact)
     = @Vscale Qc Qc Exact
         (@Qrotate Qc Qc Exact tilted_exact (@UNIT_Z Qc Qc Exact)) (Qc_of_Z (-1)).
Proof.
  destruct orientation_post_multiplied_about_x as [Hcode Hexact]. split.
  - assert (Hrej : rejection (host SyncApprox stamp_2 true origin tilted) example_display
                   = None) by (vm_compute; reflexivity).
    destruct (updateCamera_committed _ _ Hrej) as (info & image & Hi & Him & Hup).
    eexists. split; [exact Hup|].
    destruct (Hcode _ _ _ _ _ _ Hup) as (info' & image' & Hi' & Him' & Ho & _).
    rewrite Him in Him'. injection Him' as <-. exact Ho.
  - apply (Hexact exact_math tilted_exact); apply Qc_is_canon; reflexivity.
Defined.

(** C3, the claim as stated fails.  For the pose tilted about Y the
    orientation [updateCamera] gives the camera is [tilted * R_x]; it is
    none of [R_z * tilted] (pre-multiplied, about the forward axis Z),
    [R_x * tilted] (pre-multiplied about X) or [tilted * R_z]
    (post-multiplied about Z), and the camera's local Z axis points
    elsewhere than under any of these. *)
Lemma orientation_not_premultiplied_about_forward :
  let ctx := host SyncApprox stamp_2 true origin tilted in
  let r := updateCamera ctx example_display in
  let used := cam_orientation (getCamera (render_panel_ (snd r))) in
  fst r = true
  /\ used = postmultiplied_about UNIT_X host_math tilted
  /\ used <> premultiplied_about UNIT_Z host_math tilted
  /\ used <> premultiplied_about UNIT_X host_math tilted
  /\ used <> postmultiplied_about UNIT_Z host_math tilted
  /\ Qrotate used UNIT_Z <> Qrotate (premultiplied_about UNIT_Z host_math tilted) UNIT_Z
  /\ Qrotate used UNIT_Z <> Qrotate (premultiplied_about UNIT_X host_math tilted) UNIT_Z
  /\ Qrotate used UNIT_Z <> Qrotate (postmultiplied_about UNIT_Z host_math tilted) UNIT_Z.
Proof.
  cbv zeta.
  assert (Hrej : rejection (host SyncApprox stamp_2 true origin tilted) example_display
                 = None) by (vm_compute; reflexivity).
  destruct (updateCamera_committed _ _ Hrej) as (info & image & Hi & Him & ->).
  cbn [fst snd]. rewrite committed_camera. cbn [cam_orientation].
  change (resolved_orientation (host SyncApprox stamp_2 true origin tilted) image)
    with (postmultiplied_about UNIT_X host_math tilted).
  split; [reflexivity|]. split; [reflexivity|].
  repeat split; vm_compute; discriminate.
Qed.

(** ** Rounding in [SpecFloat]

    What the proofs below need of IEEE rounding, derived from the
    executable definitions: how many digits a mantissa has, what the
    right shifts of [binary_round_aux] keep, and that rounding to nearest
    stays between the truncated mantissa and its successor. *)

Lemma digits2_pos_bounds (m : positive) :
  2 ^ (Zpos (digits2_pos m) - 1) <= Zpos m < 2 ^ Zpos (digits2_pos m).
Proof.
  induction m as [p IH|p IH|]; cbn [digits2_pos].
  - rewrite Pos2Z.inj_succ, (Pos2Z.inj_xI p).
    replace (Z.succ (Zpos (digits2_pos p)) - 1) with (Z.succ (Zpos (digits2_pos p) - 1)) by lia.
    rewrite !Z.pow_succ_r by lia.
    set (a := 2 ^ (Zpos (digits2_pos p) - 1)) in *.
    set (b := 2 ^ Zpos (digits2_pos p)) in *. clearbody a b. lia.
  - rewrite Pos2Z.inj_succ, (Pos2Z.inj_xO p).
    replace (Z.succ (Zpos (digits2_pos p)) - 1) with (Z.succ (Zpos (digits2_pos p) - 1)) by lia.
    rewrite !Z.pow_succ_r by lia.
    set (a := 2 ^ (Zpos (digits2_pos p) - 1)) in *.
    set (b := 2 ^ Zpos (digits2_pos p)) in *. clearbody a b. lia.
  - cbn. lia.
Qed.

Lemma Zdigits2_unique (m d : Z) : 2 ^ (d - 1) <= m < 2 ^ d -> 0 < m -> Zdigits2 m = d.
Proof.
  intros H Hm. destruct m as [|p|p]; try lia. cbn [Zdigits2].
  pose proof (digits2_pos_bounds p) as B.
  set (e := Zpos (digits2_pos p)) in *.
  assert (0 < e) by (unfold e; lia).
  assert (0 < d). { destruct (Z_lt_le_dec 0 d); [assumption|].
    exfalso. assert (2 ^ d <= 1); [|lia].
    destruct (Z.eq_dec d 0) as [->|]; [cbn; lia|]. rewrite Z.pow_neg_r by lia. lia. }
  destruct (Z_lt_le_dec e d).
  - assert (2 ^ e <= 2 ^ (d - 1)) by (apply Z.pow_le_mono_r; lia). lia.
  - destruct (Z_lt_le_dec d e); [|lia].
    assert (2 ^ d <= 2 ^ (e - 1)) by (apply Z.pow_le_mono_r; lia). lia.
Qed.

Lemma Zdigits2_bounds (m : Z) : 0 < m -> 2 ^ (Zdigits2 m - 1) <= m < 2 ^ Zdigits2 m.
Proof. destruct m as [|p|p]; try lia. intros _. apply digits2_pos_bounds. Qed.

Lemma Zdigits2_pos (m : Z) : 0 < m -> 0 < Zdigits2 m.
Proof. destruct m; cbn; lia. Qed.

Lemma shr_1_m (r : shr_record) : 0 <= shr_m r -> shr_m (shr_1 r) = shr_m r / 2.
Proof.
  destruct r as [m rr s]. cbn [shr_m]. intros Hm.
  destruct m as [|[p|p|]|p]; cbn [shr_1 shr_m].
  - reflexivity.
  - rewrite (Pos2Z.inj_xI p). Z.div_mod_to_equations. lia.
  - rewrite (Pos2Z.inj_xO p). Z.div_mod_to_equations. lia.
  - reflexivity.
  - lia.
Qed.

Lemma iter_pos_shr_m (p : positive) : forall r : shr_record,
  0 <= shr_m r -> shr_m (iter_pos shr_1 p r) = shr_m r / 2 ^ Zpos p.
Proof.
  induction p as [p IH|p IH|]; intros r Hr; cbn [iter_pos].
  - assert (H1 : 0 <= shr_m (shr_1 r)) by (rewrite shr_1_m by assumption; apply Z.div_pos; lia).
    assert (H2 : 0 <= shr_m (iter_pos shr_1 p (shr_1 r))).
    { rewrite IH by assumption. apply Z.div_pos; [assumption|]. apply Z.pow_pos_nonneg; lia. }
    rewrite IH by assumption. rewrite IH by assumption. rewrite shr_1_m by assumption.
    rewrite !Z.div_div by (try apply Z.pow_pos_nonneg; lia).
    f_equal. rewrite (Pos2Z.inj_xI p).
    replace (2 * Zpos p + 1) with (1 + Zpos p + Zpos p) by lia.
    rewrite !Z.pow_add_r by lia. rewrite Z.pow_1_r. lia.
  - assert (H2 : 0 <= shr_m (iter_pos shr_1 p r)).
    { rewrite IH by assumption. apply Z.div_pos; [assumption|]. apply Z.pow_pos_nonneg; lia. }
    rewrite IH by assumption. rewrite IH by assumption.
    rewrite !Z.div_div by (try apply Z.pow_pos_nonneg; lia).
    f_equal. rewrite (Pos2Z.inj_xO p).
    replace (2 * Zpos p) with (Zpos p + Zpos p) by lia.
    rewrite !Z.pow_add_r by lia. lia.
  - rewrite shr_1_m by assumption. rewrite Z.pow_1_r. reflexivity.
Qed.

Lemma shr_spec (r : shr_record) (e n : Z) :
  0 <= shr_m r ->
  shr_m (fst (shr r e n)) = shr_m r / 2 ^ Z.max 0 n /\ snd (shr r e n) = e + Z.max 0 n.
Proof.
  intros Hr. destruct n as [|p|p]; cbn [shr fst snd].
  - cbn. rewrite Z.div_1_r. lia.
  - rewrite Z.max_r by lia. split; [apply iter_pos_shr_m; assumption|reflexivity].
  - cbn. rewrite Z.div_1_r. lia.
Qed.

Lemma round_nearest_even_bounds (m : Z) (l : location) :
  m <= round_nearest_even m l <= m + 1.
Proof. destruct l as [|[]]; cbn; try destruct (Z.even m); lia. Qed.

Lemma shr_m_of_loc (m : Z) (l : location) : shr_m (shr_record_of_loc m l) = m.
Proof. destruct l as [|[]]; reflexivity. Qed.

Lemma Zdigits2_le (a b : Z) : 0 < a -> a <= b -> Zdigits2 a <= Zdigits2 b.
Proof.
  intros Ha Hab.
  pose proof (Zdigits2_bounds a Ha) as Ba.
  pose proof (Zdigits2_bounds b ltac:(lia)) as Bb.
  destruct (Z_lt_le_dec (Zdigits2 b) (Zdigits2 a)) as [H|H]; [|exact H].
  assert (2 ^ Zdigits2 b <= 2 ^ (Zdigits2 a - 1)) by (apply Z.pow_le_mono_r; lia). lia.
Qed.

Lemma Zdigits2_lt_pow (m d : Z) : 0 < m -> m < 2 ^ d -> Zdigits2 m <= d.
Proof.
  intros Hm H. pose proof (Zdigits2_bounds m Hm) as B.
  destruct (Z_lt_le_dec d (Zdigits2 m)) as [L|L]; [|exact L].
  assert (2 ^ d <= 2 ^ (Zdigits2 m - 1)) by (apply Z.pow_le_mono_r; lia). lia.
Qed.

Section Rounding.
Variables prec emax : Z.
Hypothesis Hprec : 0 < prec.

Lemma fexp_no_underflow (x : Z) : emin prec emax <= x - prec -> fexp prec emax x = x - prec.
Proof. unfold fexp. lia. Qed.

(** The mantissa kept when [m] is cut down to at most [prec] digits. *)
Lemma truncated_mantissa (m : Z) :
  0 < m ->
  let k := Z.max 0 (Zdigits2 m - prec) in
  0 < m / 2 ^ k < 2 ^ prec /\ Zdigits2 (m / 2 ^ k) = Zdigits2 m - k.
Proof.
  intros Hm k. pose proof (Zdigits2_bounds m Hm) as B. pose proof (Zdigits2_pos m Hm) as HD.
  assert (Hk : 0 <= k) by (unfold k; lia).
  assert (Hpk : 0 < 2 ^ k) by (apply Z.pow_pos_nonneg; lia).
  assert (Hlo : 2 ^ (Zdigits2 m - k - 1) <= m / 2 ^ k).
  { apply Z.div_le_lower_bound; [assumption|].
    rewrite <- Z.pow_add_r by (unfold k; lia).
    replace (k + (Zdigits2 m - k - 1)) with (Zdigits2 m - 1) by lia. lia. }
  assert (Hhi : m / 2 ^ k < 2 ^ (Zdigits2 m - k)).
  { apply Z.div_lt_upper_bound; [assumption|].
    rewrite <- Z.pow_add_r by (unfold k; lia).
    replace (k + (Zdigits2 m - k)) with (Zdigits2 m) by lia. lia. }
  assert (Hpos : 0 < m / 2 ^ k).
  { assert (0 < 2 ^ (Zdigits2 m - k - 1)) by (apply Z.pow_pos_nonneg; unfold k; lia). lia. }
  split; [split; [assumption|]|].
  - assert (2 ^ (Zdigits2 m - k) <= 2 ^ prec) by (apply Z.pow_le_mono_r; unfold k; lia). lia.
  - apply Zdigits2_unique; [|assumption]. split; assumption.
Qed.

Lemma binary_round_aux_bounds (sx : bool) (mx ex : Z) (lx : location) :
  0 < mx -> emin prec emax <= Zdigits2 mx + ex - prec ->
  let k := Z.max 0 (Zdigits2 mx - prec) in
  match binary_round_aux prec emax sx mx ex lx with
  | S754_finite s m e =>
      s = sx /\ exists j, 0 <= j <= 1 /\ e = ex + k + j /\ e <= emax - prec /\
                          mx / 2 ^ k <= Zpos m * 2 ^ j <= mx / 2 ^ k + 1
  | S754_infinity s => s = sx /\ emax - prec < ex + k + 1
  | _ => False
  end.
Proof.
  intros Hmx Hund k.
  destruct (truncated_mantissa mx Hmx) as [[Hm1pos Hm1lt] Hd1]. fold k in Hm1pos, Hm1lt, Hd1.
  unfold binary_round_aux, shr_fexp.
  rewrite fexp_no_underflow by lia.
  replace (Zdigits2 mx + ex - prec - ex) with (Zdigits2 mx - prec) by lia.
  destruct (shr_spec (shr_record_of_loc mx lx) ex (Zdigits2 mx - prec)) as [Hr1 He1].
  { rewrite shr_m_of_loc. lia. }
  rewrite shr_m_of_loc in Hr1. fold k in Hr1, He1.
  destruct (shr (shr_record_of_loc mx lx) ex (Zdigits2 mx - prec)) as [r1 e1].
  cbn [fst snd] in Hr1, He1. subst e1.
  set (m2 := round_nearest_even (shr_m r1) (loc_of_shr_record r1)).
  pose proof (round_nearest_even_bounds (shr_m r1) (loc_of_shr_record r1)) as Hm2.
  fold m2 in Hm2. rewrite Hr1 in Hm2.
  assert (Hm2pos : 0 < m2) by lia.
  assert (Hd2lo : Zdigits2 mx - k <= Zdigits2 m2).
  { rewrite <- Hd1. apply Zdigits2_le; lia. }
  assert (Hd2hi : Zdigits2 m2 <= prec + 1).
  { apply Zdigits2_lt_pow; [assumption|].
    rewrite Z.pow_add_r, Z.pow_1_r by lia. lia. }
  rewrite fexp_no_underflow by lia.
  replace (Zdigits2 m2 + (ex + k) - prec - (ex + k)) with (Zdigits2 m2 - prec) by lia.
  destruct (shr_spec (shr_record_of_loc m2 loc_Exact) (ex + k) (Zdigits2 m2 - prec))
    as [Hr3 He3].
  { cbn. lia. }
  destruct (shr (shr_record_of_loc m2 loc_Exact) (ex + k) (Zdigits2 m2 - prec)) as [r3 e3].
  cbn [fst snd shr_record_of_loc shr_m] in Hr3, He3.
  set (j := Z.max 0 (Zdigits2 m2 - prec)) in *.
  assert (Hj : 0 <= j <= 1) by (unfold j; lia).
  assert (Hm3 : mx / 2 ^ k <= shr_m r3 * 2 ^ j <= mx / 2 ^ k + 1).
  { rewrite Hr3. destruct (Z.eq_dec j 0) as [->|Hj1].
    - cbn. rewrite Z.div_1_r. lia.
    - assert (j = 1) by lia. subst j. rewrite H in *. rewrite Z.pow_1_r.
      assert (Zdigits2 m2 = prec + 1) by lia.
      pose proof (Zdigits2_bounds m2 Hm2pos) as B2. rewrite H0 in B2.
      replace (prec + 1 - 1) with prec in B2 by lia.
      assert (Hev : m2 = 2 * 2 ^ (prec - 1)).
      { rewrite <- Z.pow_succ_r by lia. replace (Z.succ (prec - 1)) with prec by lia. lia. }
      clearbody m2. clear B2 Hd2lo Hd2hi Hr3.
      generalize dependent (2 ^ (prec - 1)). intros x Hev. subst m2.
      generalize dependent (mx / 2 ^ k). intros y. intros.
      Z.div_mod_to_equations. lia. }
  assert (Hm3pos : 0 < shr_m r3).
  { assert (0 < 2 ^ j) by (apply Z.pow_pos_nonneg; lia). nia. }
  destruct (shr_m r3) as [|m3|m3] eqn:E3; try lia.
  destruct (Z.leb_spec e3 (emax - prec)) as [Hle|Hgt].
  - split; [reflexivity|]. exists j. repeat split; try lia.
  - split; [reflexivity|]. lia.
Qed.

Lemma shr_nonpos (r : shr_record) (e n : Z) : n <= 0 -> shr r e n = (r, e).
Proof. destruct n; [reflexivity | lia | reflexivity]. Qed.

(** Nothing is rounded when the mantissa already fits and the exponent is
    in range. *)
Lemma binary_round_aux_exact (sx : bool) (mx : positive) (ex : Z) :
  Zdigits2 (Zpos mx) <= prec ->
  emin prec emax <= Zdigits2 (Zpos mx) + ex - prec ->
  ex <= emax - prec ->
  binary_round_aux prec emax sx (Zpos mx) ex loc_Exact = S754_finite sx mx ex.
Proof.
  intros Hd Hund Hov. unfold binary_round_aux, shr_fexp.
  rewrite fexp_no_underflow by lia.
  rewrite shr_nonpos by lia. cbn [shr_record_of_loc loc_of_shr_record shr_m round_nearest_even].
  rewrite fexp_no_underflow by lia.
  rewrite shr_nonpos by lia. cbn [shr_record_of_loc shr_m].
  destruct (Z.leb_spec ex (emax - prec)); [reflexivity|lia].
Qed.

Lemma shl_align_spec (mx : positive) (ex ex' : Z) :
  let '(mz, ez) := shl_align mx ex ex' in
  ez = Z.min ex ex' /\ Zpos mz = Zpos mx * 2 ^ (ex - ez).
Proof.
  unfold shl_align. destruct (ex' - ex) as [|d|d] eqn:E.
  - split; [lia|]. replace (ex - ex) with 0 by lia. cbn. lia.
  - split; [lia|]. replace (ex - ex) with 0 by lia. cbn. lia.
  - split; [lia|]. fold (shift_pos d mx). rewrite shift_pos_correct.
    replace (ex - ex') with (Zpos d) by lia. change (Z.pow_pos 2 d) with (2 ^ Zpos d). lia.
Qed.

Lemma Zdigits2_shift (m n : Z) : 0 < m -> 0 <= n -> Zdigits2 (m * 2 ^ n) = Zdigits2 m + n.
Proof.
  intros Hm Hn. pose proof (Zdigits2_bounds m Hm) as B. pose proof (Zdigits2_pos m Hm).
  assert (0 < 2 ^ n) by (apply Z.pow_pos_nonneg; lia).
  apply Zdigits2_unique; [|nia].
  replace (Zdigits2 m + n - 1) with ((Zdigits2 m - 1) + n) by lia.
  rewrite !Z.pow_add_r by lia. nia.
Qed.

(** Rounding a positive mantissa that does not underflow never gives a
    zero or a NaN; the result keeps the sign and its exponent is not below
    the smaller of [ex] and [emin]. *)
Lemma binary_round_nonzero (sx : bool) (mx : positive) (ex : Z) :
  emin prec emax <= Zdigits2 (Zpos mx) + ex - prec ->
  match binary_round prec emax sx mx ex with
  | S754_finite s m e => s = sx /\ Z.min ex (emin prec emax) <= e
  | S754_infinity s => s = sx
  | _ => False
  end.
Proof.
  intros Hund. unfold binary_round.
  pose proof (shl_align_spec mx ex (fexp prec emax (Zpos (digits2_pos mx) + ex))) as Hal.
  destruct (shl_align mx ex _) as [mz ez]. destruct Hal as [Hez Hmz].
  change (Zpos (digits2_pos mx)) with (Zdigits2 (Zpos mx)) in Hez.
  rewrite fexp_no_underflow in Hez by lia.
  assert (Hdz : Zdigits2 (Zpos mz) = Zdigits2 (Zpos mx) + (ex - ez)).
  { rewrite Hmz. apply Zdigits2_shift; lia. }
  pose proof (binary_round_aux_bounds sx (Zpos mz) ez loc_Exact ltac:(lia) ltac:(lia)) as Hb.
  cbv zeta in Hb.
  destruct (binary_round_aux prec emax sx (Zpos mz) ez loc_Exact) as [| s | | s m e];
    try contradiction.
  - tauto.
  - destruct Hb as [Hs (j & Hj & He & _)]. split; [assumption|]. lia.
Qed.
End Rounding.

Lemma of_Z_nonzero (prec emax : Z) (n : Z) :
  0 < prec -> emin prec emax <= 1 - prec -> n <> 0 ->
  match binary_normalize prec emax n 0 false with
  | S754_finite s m e => s = (n <? 0) /\ Z.min 0 (emin prec emax) <= e
  | S754_infinity s => s = (n <? 0)
  | _ => False
  end.
Proof.
  intros Hprec Hemin Hn. destruct n as [|p|p]; [contradiction| |]; cbn [binary_normalize].
  - apply binary_round_nonzero; [assumption|]. pose proof (Zdigits2_pos (Zpos p)). lia.
  - apply binary_round_nonzero; [assumption|]. pose proof (Zdigits2_pos (Zpos p)). lia.
Qed.

Lemma SFeqb_zero (prec emax : Z) (x : spec_float) (s : bool) :
  x <> S754_nan -> SFeqb x (S754_zero s) = SFzero x.
Proof. destruct x as [| [] | | [] ]; cbn; congruence. Qed.

(** ** Integers in single and double precision *)

Lemma B32_of_Z_nonzero (n : Z) :
  n <> 0 ->
  match B32.of_Z n with
  | S754_finite s m e => -149 <= e
  | S754_infinity s => True
  | _ => False
  end.
Proof.
  intros Hn. pose proof (of_Z_nonzero B32.prec B32.emax n eq_refl ltac:(cbv; discriminate) Hn) as H.
  unfold B32.of_Z. destruct (binary_normalize _ _ n 0 false); try contradiction; [exact I|].
  destruct H as [_ H]. exact H.
Qed.

Lemma f_of_Z_eq_zero (n : Z) : feqb (f_of_Z n) (f_of_Z 0) = (n =? 0).
Proof.
  cbn [feqb f_of_Z IEEE bits32]. destruct (Z.eqb_spec n 0) as [->|Hn]; [reflexivity|].
  pose proof (B32_of_Z_nonzero n Hn) as H.
  destruct (B32.of_Z n) as [| [] | | [] m e]; try contradiction; reflexivity.
Qed.

Lemma to_double_f_of_Z_eq_zero (n : Z) : deqb (to_double (f_of_Z n)) (d_of_Z 0) = (n =? 0).
Proof.
  cbn [deqb to_double f_of_Z d_of_Z IEEE bits32 bits64].
  destruct (Z.eqb_spec n 0) as [->|Hn]; [reflexivity|].
  pose proof (B32_of_Z_nonzero n Hn) as H.
  destruct (B32.of_Z n) as [| s | | s m e]; try contradiction.
  - destruct s; reflexivity.
  - cbn [SFconvert].
    assert (Hb : match binary_round B64.prec B64.emax s m e with
                 | S754_finite _ _ _ | S754_infinity _ => True | _ => False end).
    { pose proof (binary_round_nonzero B64.prec B64.emax eq_refl s m e) as Hb.
      pose proof (Zdigits2_pos (Zpos m) eq_refl).
      assert (Hu : emin B64.prec B64.emax <= Zdigits2 (Z.pos m) + e - B64.prec)
        by (unfold emin, B64.prec, B64.emax; lia).
      specialize (Hb Hu).
      destruct (binary_round B64.prec B64.emax s m e); tauto. }
    assert (Hn' : binary_normalize B64.prec B64.emax (cond_Zopp s (Z.pos m)) e s
                  = binary_round B64.prec B64.emax s m e) by (destruct s; reflexivity).
    rewrite Hn'.
    destruct (binary_round B64.prec B64.emax s m e) as [| [] | | [] ? ?];
      try contradiction; reflexivity.
Qed.

(** ** The size of the read-back buffer *)

(** An integer of at most 53 bits converts to double exactly. *)
Lemma B64_of_Z_exact (d : Z) :
  0 < d < 2 ^ 53 ->
  exists mz ez,
    B64.of_Z d = S754_finite false mz ez /\ ez = Zdigits2 d - 53 /\
    Zpos mz = d * 2 ^ (- ez) /\ Zdigits2 (Zpos mz) = 53.
Proof.
  intros Hd. destruct d as [|p|p]; try lia.
  assert (HD : 0 < Zdigits2 (Zpos p) <= 53).
  { split; [apply Zdigits2_pos; lia | apply Zdigits2_lt_pow; lia]. }
  unfold B64.of_Z. cbn [binary_normalize]. unfold binary_round.
  pose proof (shl_align_spec p 0 (fexp B64.prec B64.emax (Zpos (digits2_pos p) + 0))) as Hal.
  destruct (shl_align p 0 _) as [mz ez]. destruct Hal as [Hez Hmz].
  change (Zpos (digits2_pos p)) with (Zdigits2 (Zpos p)) in Hez.
  rewrite (fexp_no_underflow B64.prec B64.emax) in Hez
    by (unfold emin, B64.prec, B64.emax; lia).
  unfold B64.prec in Hez.
  assert (Hez' : ez = Zdigits2 (Zpos p) - 53) by lia.
  assert (Hdz : Zdigits2 (Zpos mz) = 53).
  { rewrite Hmz. rewrite Zdigits2_shift by lia. lia. }
  exists mz, ez. split; [|split; [assumption|split; [|assumption]]].
  - apply binary_round_aux_exact; unfold emin, B64.prec, B64.emax; lia.
  - rewrite Hmz. reflexivity.
Qed.

(** Cancelling a positive factor. *)
Lemma mul_lt_cancel (a b c : Z) : 0 < c -> a * c < b * c -> a < b.
Proof. intros Hc H. apply (Z.mul_lt_mono_pos_r c); assumption. Qed.

Lemma mul_le_cancel (a b c : Z) : 0 < c -> a * c <= b * c -> a <= b.
Proof. intros Hc H. apply (Z.mul_le_mono_pos_r _ _ c); assumption. Qed.

Lemma scaled_quotient (E J Kp Y q r m T A dS : Z) :
  0 < E -> 0 < J -> 0 < Kp -> Y = E * J * Kp ->
  Kp * T <= A < Kp * T + Kp ->
  T <= m * J <= T + 1 ->
  20 * A = (20 * q + r) * Y + 4 * dS ->
  0 <= r < 20 -> 0 <= dS ->
  4 * dS + 20 * Kp < Y ->
  E * q <= m < E * (q + 1).
Proof.
  intros HE HJ HK HY HT Hm HA Hr HdS Hsize.
  assert (HY0 : 0 < Y) by (subst Y; apply Z.mul_pos_pos; [apply Z.mul_pos_pos|]; assumption).
  split.
  - (* q * (E J) * Kp <= A < (T + 1) * Kp *)
    assert (H1 : q * Y <= A).
    { assert (0 <= r * Y) by (apply Z.mul_nonneg_nonneg; lia). lia. }
    assert (H2 : (E * q * J) * Kp < (T + 1) * Kp).
    { replace (E * q * J * Kp) with (q * Y) by (subst Y; ring). lia. }
    apply mul_lt_cancel in H2; [|assumption].
    apply (mul_le_cancel _ _ J); [assumption|]. lia.
  - assert (H1 : r * Y <= 19 * Y) by (apply Z.mul_le_mono_nonneg_r; lia).
    assert (H2 : 20 * ((T + 1) * Kp) < 20 * ((E * (q + 1) * J) * Kp)).
    { replace (E * (q + 1) * J * Kp) with ((q + 1) * Y) by (subst Y; ring). lia. }
    assert (H3 : (T + 1) * Kp < (E * (q + 1) * J) * Kp) by lia.
    apply mul_lt_cancel in H3; [|assumption].
    apply (mul_lt_cancel _ _ J); [assumption|]. lia.
Qed.

Lemma mul_1_05_exact (d : Z) :
  0 <= d < 2 ^ 32 -> SFtrunc (B64.mul (B64.of_Z d) double_1_05) = 21 * d / 20.
Proof.
  intros Hd. destruct (Z.eq_dec d 0) as [->|Hnz]; [vm_compute; reflexivity|].
  destruct (B64_of_Z_exact d ltac:(lia)) as (mz & ez & -> & Hez & Hmz & Hdz).
  assert (HD : 0 < Zdigits2 d <= 32).
  { split; [apply Zdigits2_pos; lia | apply Zdigits2_lt_pow; lia]. }
  pose proof (Zdigits2_bounds (Zpos mz) eq_refl) as Bz. rewrite Hdz in Bz.
  change (2 ^ (53 - 1)) with 4503599627370496 in Bz.
  change (2 ^ 53) with 9007199254740992 in Bz.
  unfold B64.mul, double_1_05. cbn [SFmul xorb].
  set (A := Zpos (mz * 4728779608739021)).
  assert (HA : A = Zpos mz * 4728779608739021) by reflexivity.
  assert (HAlo : 2 ^ 104 <= A) by (change (2 ^ 104) with 20282409603651670423947251286016; lia).
  assert (HAhi : A < 2 ^ 106) by (change (2 ^ 106) with 81129638414606681695789005144064; lia).
  assert (HDA : 105 <= Zdigits2 A <= 106).
  { split.
    - pose proof (Zdigits2_bounds A ltac:(lia)) as BA.
      destruct (Z_lt_le_dec (Zdigits2 A) 105) as [L|L]; [|exact L].
      assert (2 ^ Zdigits2 A <= 2 ^ 104) by (apply Z.pow_le_mono_r; lia). lia.
    - apply Zdigits2_lt_pow; lia. }
  pose proof (binary_round_aux_bounds B64.prec B64.emax eq_refl false A (ez + -52) loc_Exact
                ltac:(lia) ltac:(unfold emin, B64.prec, B64.emax; lia)) as Hb.
  cbv zeta in Hb.
  destruct (binary_round_aux B64.prec B64.emax false A (ez + -52) loc_Exact)
    as [| s | | s m e]; try contradiction; unfold B64.prec, B64.emax in Hb.
  - destruct Hb as [_ Hb]. lia.
  - destruct Hb as [-> (j & Hj & He & _ & Hm)].
    set (k := Z.max 0 (Zdigits2 A - 53)) in *.
    assert (Hk : 52 <= k <= 53) by (unfold k; lia).
    unfold SFtrunc. cbn [cond_Zopp].
    destruct (Z.leb_spec 0 e) as [Hpos|Hneg]; [lia|].
    assert (HT : 2 ^ k * (A / 2 ^ k) <= A < 2 ^ k * (A / 2 ^ k) + 2 ^ k).
    { assert (H : 0 < 2 ^ k) by (apply Z.pow_pos_nonneg; lia).
      pose proof (Z.mul_div_le A (2 ^ k) H). pose proof (Z.mul_succ_div_gt A (2 ^ k) H). lia. }
    assert (Hq := Z.div_mod (21 * d) 20 ltac:(lia)).
    assert (Hr := Z.mod_pos_bound (21 * d) 20 ltac:(lia)).
    assert (HS21 : 2 ^ 21 <= 2 ^ (- ez)) by (apply Z.pow_le_mono_r; lia).
    assert (HY : 2 ^ (- ez) * 2 ^ 52 = 2 ^ (- e) * 2 ^ j * 2 ^ k).
    { rewrite <- !Z.pow_add_r by lia. f_equal. lia. }
    assert (Hk53 : 2 ^ k <= 2 ^ 53) by (apply Z.pow_le_mono_r; lia).
    assert (Hbound : 2 ^ (- e) * (21 * d / 20) <= Zpos m < 2 ^ (- e) * (21 * d / 20 + 1)).
    {      apply (scaled_quotient (2 ^ (- e)) (2 ^ j) (2 ^ k) (2 ^ (- ez) * 2 ^ 52)
               (21 * d / 20) ((21 * d) mod 20) (Zpos m) (A / 2 ^ k) A (Zpos mz));
        try (apply Z.pow_pos_nonneg; lia); try assumption; lia. }
    symmetry. apply Z.div_unique with (r := Zpos m - 2 ^ (- e) * (21 * d / 20)); lia.
Qed.

Lemma mul_1_05_covers (d : Z) :
  0 <= d < 2 ^ 32 -> d <= SFtrunc (B64.mul (B64.of_Z d) double_1_05).
Proof.
  intros Hd. destruct (Z.eq_dec d 0) as [->|Hnz]; [vm_compute; discriminate|].
  destruct (B64_of_Z_exact d ltac:(lia)) as (mz & ez & -> & Hez & Hmz & Hdz).
  assert (HD : 0 < Zdigits2 d <= 32).
  { split; [apply Zdigits2_pos; lia | apply Zdigits2_lt_pow; lia]. }
  pose proof (Zdigits2_bounds (Zpos mz) eq_refl) as Bz. rewrite Hdz in Bz.
  change (2 ^ (53 - 1)) with 4503599627370496 in Bz.
  change (2 ^ 53) with 9007199254740992 in Bz.
  unfold B64.mul, double_1_05. cbn [SFmul xorb].
  set (A := Zpos (mz * 4728779608739021)).
  assert (HA : A = Zpos mz * 4728779608739021) by reflexivity.
  assert (HAlo : 2 ^ 104 <= A) by (change (2 ^ 104) with 20282409603651670423947251286016; lia).
  assert (HAhi : A < 2 ^ 106) by (change (2 ^ 106) with 81129638414606681695789005144064; lia).
  assert (HDA : 105 <= Zdigits2 A <= 106).
  { split.
    - pose proof (Zdigits2_bounds A ltac:(lia)) as BA.
      destruct (Z_lt_le_dec (Zdigits2 A) 105) as [L|L]; [|exact L].
      assert (2 ^ Zdigits2 A <= 2 ^ 104) by (apply Z.pow_le_mono_r; lia). lia.
    - apply Zdigits2_lt_pow; lia. }
  pose proof (binary_round_aux_bounds B64.prec B64.emax eq_refl false A (ez + -52) loc_Exact
                ltac:(lia) ltac:(unfold emin, B64.prec, B64.emax; lia)) as Hb.
  cbv zeta in Hb.
  destruct (binary_round_aux B64.prec B64.emax false A (ez + -52) loc_Exact)
    as [| s | | s m e]; try contradiction; unfold B64.prec, B64.emax in Hb.
  - destruct Hb as [_ Hb]. lia.
  - destruct Hb as [-> (j & Hj & He & _ & Hm)].
    set (k := Z.max 0 (Zdigits2 A - 53)) in *.
    assert (Hk : k = 52 \/ k = 53) by (unfold k; lia).
    unfold SFtrunc. cbn [cond_Zopp].
    destruct (Z.leb_spec 0 e) as [Hpos|Hneg]; [lia|].
    apply Z.div_le_lower_bound; [apply Z.pow_pos_nonneg; lia|].
    (* 2^(-e) * d <= m, from mz = d * 2^(-ez) and -ez = -e + (k + j - 52) *)
    set (t := k + j - 52).
    assert (Ht : 0 <= t <= 2) by (unfold t; lia).
    assert (Hsplit : 2 ^ (- ez) = 2 ^ (- e) * 2 ^ t).
    { rewrite <- Z.pow_add_r by lia. f_equal. unfold t. lia. }
    assert (Hpt : 0 < 2 ^ t) by (apply Z.pow_pos_nonneg; lia).
    assert (Hgoal : Zpos mz <= Zpos m * 2 ^ t).
    { assert (Hpk : 2 ^ t = 2 ^ j * 2 ^ (k - 52)).
      { rewrite <- Z.pow_add_r by lia. f_equal. unfold t. lia. }
      rewrite Hpk. destruct Hm as [Hm _].
      assert (HT : Zpos mz <= A / 2 ^ k * 2 ^ (k - 52)).
      { destruct Hk as [-> | ->].
        - change (2 ^ (52 - 52)) with 1. change (2 ^ 52) with 4503599627370496.
          Z.div_mod_to_equations. lia.
        - change (2 ^ (53 - 52)) with 2. change (2 ^ 53) with 9007199254740992.
          Z.div_mod_to_equations. lia. }
      assert (0 < 2 ^ (k - 52)) by (apply Z.pow_pos_nonneg; lia).
      nia. }
    rewrite Hmz, Hsplit in Hgoal.
    assert (0 < 2 ^ (- e)) by (apply Z.pow_pos_nonneg; lia).
    nia.
Qed.

(** ** The zoom factors *)

Lemma Qc_of_Z_eq_0 (n : Z) : Qc_of_Z n = 0%Qc <-> n = 0.
Proof.
  unfold Qc_of_Z. rewrite Q2Qc_eq_iff. unfold Qeq, inject_Z. cbn. lia.
Qed.

Lemma Qc_of_Z_pos (n : Z) : 0 < n -> (0 < Qc_of_Z n)%Qc.
Proof.
  intros Hn. unfold Qclt, Qc_of_Z. cbn [this Q2Qc]. rewrite !Qred_correct.
  unfold Qlt, inject_Z. cbn. lia.
Qed.

Lemma Qc_eq_bool_iff (x y : Qc) : Qc_eq_bool x y = true <-> x = y.
Proof.
  split; [apply Qc_eq_bool_correct|]. intros ->. unfold Qc_eq_bool.
  destruct (Qc_eq_dec y y); [reflexivity|contradiction].
Qed.

Lemma Qc_ltb_iff (x y : Qc) : Qc_ltb x y = true <-> (x < y)%Qc.
Proof.
  unfold Qc_ltb. rewrite Qclt_alt. destruct (x ?= y)%Qc; split; congruence.
Qed.

Lemma Qcinv_pos (x : Qc) : (0 < x -> 0 < / x)%Qc.
Proof.
  unfold Qclt, Qcinv. cbn [this Q2Qc]. intros Hx.
  rewrite (Qred_correct (/ x)). apply Qinv_lt_0_compat. exact Hx.
Qed.

Lemma Qcdiv_pos (x y : Qc) : (0 < x -> 0 < y -> 0 < x / y)%Qc.
Proof.
  intros Hx Hy. unfold Qcdiv. rewrite <- (Qcmult_0_l (/ y)).
  apply Qcmult_lt_compat_r; [apply Qcinv_pos|]; assumption.
Qed.

Lemma Qcdiv_lt_1 (x y : Qc) : (0 < y -> x < y -> x / y < 1)%Qc.
Proof.
  intros Hy Hxy. unfold Qcdiv. rewrite <- (Qcmult_inv_r y) by (apply not_eq_sym, Qclt_not_eq; exact Hy).
  apply Qcmult_lt_compat_r; [apply Qcinv_pos|]; assumption.
Qed.

Section ExactZoom.
#[local] Existing Instance Exact.

Lemma zoom_factors_exact (W H vw vh : Z) (fx fy : Qc) :
  0 < W -> 0 < H -> vw <> 0 -> vh <> 0 -> (0 < fx)%Qc -> (0 < fy)%Qc ->
  let ia := img_aspect (f_of_Z W) (f_of_Z H) fx fy in
  let wa := win_aspect (f_of_Z vw) (f_of_Z vh) in
  let z := zoom_factors (f_of_Z W) (f_of_Z H) fx fy (f_of_Z vw) (f_of_Z vh) in
  ((wa < ia)%Qc -> fst z = 1%Qc /\ snd z = (wa / ia)%Qc /\ (snd z < 1)%Qc)
  /\ ((ia < wa)%Qc -> snd z = 1%Qc /\ fst z = (ia / wa)%Qc /\ (fst z < 1)%Qc)
  /\ (ia = wa -> fst z = 1%Qc /\ snd z = 1%Qc).
Proof.
  intros HW HH Hvw Hvh Hfx Hfy ia wa z.
  assert (Hia : (0 < ia)%Qc).
  { unfold ia, img_aspect. cbn [to_double to_float ddiv f_of_Z Exact].
    apply Qcdiv_pos; apply Qcdiv_pos; try assumption; apply Qc_of_Z_pos; assumption. }
  assert (Hz : z = if Qc_ltb wa ia then (1%Qc, (1 / ia * wa)%Qc) else ((1 / wa * ia)%Qc, 1%Qc)).
  { unfold z, zoom_factors, f_neqb, f_gtb. fold ia. fold wa.
    cbn [feqb fltb to_float d_of_Z f_of_Z fdiv fmul Exact].
    destruct (Qc_eq_bool (Qc_of_Z vw) (Qc_of_Z 0)) eqn:E1.
    { apply Qc_eq_bool_iff, Qc_of_Z_eq_0 in E1. contradiction. }
    destruct (Qc_eq_bool (Qc_of_Z vh) (Qc_of_Z 0)) eqn:E2.
    { apply Qc_eq_bool_iff, Qc_of_Z_eq_0 in E2. contradiction. }
    reflexivity. }
  rewrite Hz. split; [|split].
  - intros Hlt. rewrite (proj2 (Qc_ltb_iff wa ia) Hlt). cbn [fst snd].
    assert (E : (1 / ia * wa = wa / ia)%Qc) by (unfold Qcdiv; ring).
    rewrite E. split; [reflexivity|]. split; [reflexivity|].
    apply Qcdiv_lt_1; assumption.
  - intros Hlt.
    assert (Hn : Qc_ltb wa ia = false).
    { destruct (Qc_ltb wa ia) eqn:E; [|reflexivity]. apply Qc_ltb_iff in E.
      exfalso. exact (Qclt_not_le _ _ E (Qclt_le_weak _ _ Hlt)). }
    rewrite Hn. cbn [fst snd].
    assert (E : (1 / wa * ia = ia / wa)%Qc) by (unfold Qcdiv; ring).
    rewrite E. split; [reflexivity|]. split; [reflexivity|].
    apply Qcdiv_lt_1; [exact (Qclt_trans _ _ _ Hia Hlt)|assumption].
  - intros Heq.
    assert (Hn : Qc_ltb wa ia = false).
    { destruct (Qc_ltb wa ia) eqn:E; [|reflexivity]. apply Qc_ltb_iff in E.
      rewrite Heq in E. exfalso. exact (Qclt_not_eq _ _ E eq_refl). }
    rewrite Hn. cbn [fst snd]. split; [|reflexivity].
    rewrite <- Heq. unfold Qcdiv. rewrite Qcmult_1_l. apply Qcmult_inv_l.
    apply not_eq_sym, Qclt_not_eq. exact Hia.
Qed.

(** In IEEE arithmetic, for a viewport with non-zero sides, the factors
    are what the two branches compute, with the roundings of single
    precision: one factor is exactly 1, the other is the reciprocal of one
    aspect times the other aspect. *)
Lemma zoom_factors_IEEE (W H : binary32) (fx fy : binary64) (vw vh : Z) :
  vw <> 0 -> vh <> 0 ->
  let ia := img_aspect W H fx fy in
  let wa := win_aspect (f_of_Z vw) (f_of_Z vh) in
  zoom_factors W H fx fy (f_of_Z vw) (f_of_Z vh)
  = if fltb wa ia
    then (f_of_Z 1, (f_of_Z 1 / ia * wa)%flt)
    else ((f_of_Z 1 / wa * ia)%flt, f_of_Z 1).
Proof.
  intros Hvw Hvh. cbv zeta. unfold zoom_factors, f_neqb, f_gtb.
  rewrite !f_of_Z_eq_zero.
  destruct (Z.eqb_spec vw 0); [contradiction|].
  destruct (Z.eqb_spec vh 0); [contradiction|].
  reflexivity.
Qed.

(** C2 (as amended).  For a viewport with non-zero sides the code leaves
    one zoom factor at exactly 1 and sets the other to a product computed
    in single precision: (1 / imgAspect) * winAspect for zoomY when
    imgAspect > winAspect, and (1 / winAspect) * imgAspect for zoomX
    otherwise (which includes imgAspect = winAspect).  In exact arithmetic,
    for positive fx, fy and image sides, these products are
    winAspect / imgAspect < 1, imgAspect / winAspect < 1 and 1: the
    trichotomy holds there. *)
Theorem zoom_factors_by_aspect :
  (forall (W H : binary32) (fx fy : binary64) (vw vh : Z),
      vw <> 0 -> vh <> 0 ->
      let ia := img_aspect W H fx fy in
      let wa := win_aspect (f_of_Z vw) (f_of_Z vh) in
      zoom_factors W H fx fy (f_of_Z vw) (f_of_Z vh)
      = if fltb wa ia
        then (f_of_Z 1, (f_of_Z 1 / ia * wa)%flt)
        else ((f_of_Z 1 / wa * ia)%flt, f_of_Z 1))
  /\ (forall (W H vw vh : Z) (fx fy : Qc),
        0 < W -> 0 < H -> vw <> 0 -> vh <> 0 -> (0 < fx)%Qc -> (0 < fy)%Qc ->
        let ia := img_aspect (f_of_Z W) (f_of_Z H) fx fy in
        let wa := win_aspect (f_of_Z vw) (f_of_Z vh) in
        let z := zoom_factors (f_of_Z W) (f_of_Z H) fx fy (f_of_Z vw) (f_of_Z vh) in
        ((wa < ia)%Qc -> fst z = 1%Qc /\ snd z = (wa / ia)%Qc /\ (snd z < 1)%Qc)
        /\ ((ia < wa)%Qc -> snd z = 1%Qc /\ fst z = (ia / wa)%Qc /\ (fst z < 1)%Qc)
        /\ (ia = wa -> fst z = 1%Qc /\ snd z = 1%Qc)).
Proof. split; [exact zoom_factors_IEEE | exact zoom_factors_exact]. Qed.

Lemma zoom_factors_by_aspect_witness :
  zoom_factors (f_of_Z 720) (f_of_Z 480) (d_of_Z 500) (d_of_Z 500) (f_of_Z 640) (f_of_Z 480)
  = (f_of_Z 1, eight_ninths_up)
  /\ zoom_factors (Qc_of_Z 720) (Qc_of_Z 480) (Qc_of_Z 500) (Qc_of_Z 500)
       (Qc_of_Z 640) (Qc_of_Z 480)
     = (1%Qc, Q2Qc (8 # 9)).
Proof.
  destruct zoom_factors_by_aspect as [Hieee Hexact]. split.
  - rewrite (Hieee (f_of_Z 720) (f_of_Z 480) (d_of_Z 500) (d_of_Z 500) 640 480)
      by discriminate.
    vm_compute. reflexivity.
  - assert (Hgt := proj1 (Hexact 720 480 640 480 (Qc_of_Z 500) (Qc_of_Z 500)
                           eq_refl eq_refl (Z.neq_sym _ _ (Z.lt_neq 0 640 eq_refl))
                           (Z.neq_sym _ _ (Z.lt_neq 0 480 eq_refl)) eq_refl eq_refl)
                        eq_refl).
    cbv zeta in Hgt. destruct Hgt as (Hx & Hy & _).
    apply injective_projections; cbn [fst snd].
    + exact Hx.
    + etransitivity; [exact Hy|]. apply Qc_is_canon. reflexivity.
Defined.
End ExactZoom.

(** C2, the claim as stated fails in the arithmetic of the code.  A
    1936x1216 camera with fx = fy in a 1936x1216 panel has imgAspect =
    winAspect, yet zoomX = (1 / winAspect) * winAspect rounds to the float
    just below 1; the resolve is accepted and the rectangles get that
    corner.  And for a 720x480 camera in a 640x480 panel (imgAspect >
    winAspect) zoomY = (1 / imgAspect) * winAspect is one float above the
    quotient winAspect / imgAspect. *)
Lemma equal_aspects_zoom_below_one :
  let ctx := host SyncApprox stamp_2 true origin IDENTITY in
  (img_aspect (f_of_Z 1936) (f_of_Z 1216) (d_of_Z 1000) (d_of_Z 1000)
   = win_aspect (f_of_Z 1936) (f_of_Z 1216))
  /\ zoom_factors (f_of_Z 1936) (f_of_Z 1216) (d_of_Z 1000) (d_of_Z 1000)
       (f_of_Z 1936) (f_of_Z 1216) = (below_one, f_of_Z 1)
  /\ below_one <> f_of_Z 1
  /\ fst (updateCamera ctx wide_display) = true
  /\ rect_right (bg_screen_rect_ (snd (updateCamera ctx wide_display))) = below_one
  /\ fltb (win_aspect (f_of_Z 640) (f_of_Z 480))
          (img_aspect (f_of_Z 720) (f_of_Z 480) (d_of_Z 500) (d_of_Z 500)) = true
  /\ zoom_factors (f_of_Z 720) (f_of_Z 480) (d_of_Z 500) (d_of_Z 500)
       (f_of_Z 640) (f_of_Z 480) = (f_of_Z 1, eight_ninths_up)
  /\ (win_aspect (f_of_Z 640) (f_of_Z 480)
      / img_aspect (f_of_Z 720) (f_of_Z 480) (d_of_Z 500) (d_of_Z 500))%flt = eight_ninths
  /\ eight_ninths_up <> eight_ninths.
Proof.
  cbv zeta.
  assert (Hrej : rejection (host SyncApprox stamp_2 true origin IDENTITY) wide_display
                 = None) by (vm_compute; reflexivity).
  destruct (updateCamera_committed _ _ Hrej) as (info & image & Hi & Him & ->).
  injection Hi as <-. injection Him as <-. cbn [fst snd].
  destruct (committed_rects (host SyncApprox stamp_2 true origin IDENTITY)
              (pinhole 1936 1216 1000 968 608) (image_at stamp_1 1936 1216) wide_display)
    as [-> _].
  repeat split; try (vm_compute; reflexivity); vm_compute; discriminate.
Qed.

(** ** Which rejection a resolve meets *)

Lemma forallb_false {T : Type} (f : T -> bool) (l : list T) :
  forallb f l = false <-> exists x, In x l /\ f x = false.
Proof.
  induction l as [|a l IH]; cbn.
  - split; [discriminate|]. intros (x & [] & _).
  - rewrite andb_false_iff, IH. split.
    + intros [Ha|(x & Hx & Hf)]; [exists a; auto|exists x; auto].
    + intros (x & [<-|Hx] & Hf); [left; assumption|right; exists x; auto].
Qed.

Lemma validateFloats_entries {float double : Type} {A : Arith float double}
    (info : CameraInfo double) :
  validateFloats info = forallb validateFloats_double (entries info).
Proof.
  unfold validateFloats, entries. rewrite !forallb_app. cbn [andb].
  rewrite <- !andb_assoc. reflexivity.
Qed.

Lemma not_finite_IEEE (x : binary64) :
  d_isfinite x = false <-> bits64 x = S754_nan \/ exists s, bits64 x = S754_infinity s.
Proof.
  destruct x as [[s|s| |s m e]]; cbn; split; try discriminate; try tauto.
  - intros [H|(s' & H)]; discriminate.
  - intros _. right. exists s. reflexivity.
  - intros [H|(s' & H)]; discriminate.
Qed.

Lemma image_size_IEEE (info : CameraInfo binary64) (t : ROSImageTexture) :
  image_size info t
  = (f_of_Z (if width info =? 0 then tex_width t else width info),
     f_of_Z (if height info =? 0 then tex_height t else height info)).
Proof.
  unfold image_size. rewrite !f_of_Z_eq_zero.
  destruct (width info =? 0), (height info =? 0); reflexivity.
Qed.

Lemma size_undetermined_IEEE (w h : Z) :
  size_undetermined (f_of_Z w) (f_of_Z h) = (h =? 0) || (w =? 0).
Proof. unfold size_undetermined. rewrite !to_double_f_of_Z_eq_zero. reflexivity. Qed.

(** C5 (as amended).  With a camera info and an image at hand:
    [updateCamera] leaves through the "invalid floating point" return
    exactly when some entry of D, K, R or P is a NaN or an infinity; it
    leaves through the "malformed" return exactly when all entries are
    finite, the sync check passes, and the width or the height is still 0
    after falling back to the texture (the camera info's width and the
    texture's width are both 0, or the same for the heights).  Either way
    it returns false and sets Error on "Camera Info" with the
    corresponding text. *)
Theorem rejection_classes (ctx : DisplayContext binary32) (d : CameraPub binary32 binary64)
    (info : CameraInfo binary64) (image : Image) :
  current_caminfo_ d = Some info -> getImage (texture_ d) = Some image ->
  (rejection ctx d = Some InvalidFloats
     <-> exists x, In x (entries info)
                   /\ (bits64 x = S754_nan \/ exists s, bits64 x = S754_infinity s))
  /\ (rejection ctx d = Some Malformed
        <-> validateFloats info = true /\ sync_mismatch ctx image = false
            /\ ((width info = 0 /\ tex_width (texture_ d) = 0)
                \/ (height info = 0 /\ tex_height (texture_ d) = 0)))
  /\ (rejection ctx d = Some InvalidFloats ->
        updateCamera ctx d = (false, setStatus Error "Camera Info" msg_invalid_floats d))
  /\ (rejection ctx d = Some Malformed ->
        updateCamera ctx d = (false, setStatus Error "Camera Info" msg_malformed d)).
Proof.
  intros Hi Him.
  assert (Hund : (let '(w, h) := image_size info (texture_ d) in size_undetermined w h) = true
                 <-> (width info = 0 /\ tex_width (texture_ d) = 0)
                     \/ (height info = 0 /\ tex_height (texture_ d) = 0)).
  { rewrite image_size_IEEE, size_undetermined_IEEE, orb_true_iff, !Z.eqb_eq.
    destruct (Z.eqb_spec (width info) 0), (Z.eqb_spec (height info) 0); lia. }
  split; [|split; [|split]].
  - unfold rejection. rewrite Hi, Him.
    assert (Hnf : (exists x, In x (entries info)
                     /\ (bits64 x = S754_nan \/ exists s, bits64 x = S754_infinity s))
                  <-> validateFloats info = false).
    { rewrite validateFloats_entries, forallb_false. split.
      - intros (x & Hx & Hb). exists x. split; [assumption|]. apply not_finite_IEEE, Hb.
      - intros (x & Hx & Hb). exists x. split; [assumption|]. apply not_finite_IEEE, Hb. }
    rewrite Hnf. destruct (validateFloats info); cbn [negb].
    + split; [|discriminate]. destruct (sync_mismatch ctx image); [discriminate|].
      destruct (image_size _ _). destruct (size_undetermined _ _); [discriminate|].
      destruct (negb _); discriminate.
    + split; reflexivity.
  - unfold rejection. rewrite Hi, Him. rewrite <- Hund.
    destruct (validateFloats info); cbn [negb].
    + destruct (sync_mismatch ctx image).
      * split; [discriminate|]. intros (_ & H & _). discriminate.
      * destruct (image_size _ _). destruct (size_undetermined _ _).
        -- split; auto.
        -- split; [|intros (_ & _ & H); discriminate].
           destruct (negb _); discriminate.
    + split; [discriminate|]. intros (H & _). discriminate.
  - intros Hr. apply (updateCamera_rejected ctx d InvalidFloats Hr).
  - intros Hr. apply (updateCamera_rejected ctx d Malformed Hr).
Qed.

Lemma rejection_classes_witness :
  let ctx := host SyncApprox stamp_2 true origin IDENTITY in
  updateCamera ctx no_width_display
  = (false, setStatus Error "Camera Info" msg_malformed no_width_display).
Proof.
  cbv zeta.
  destruct (rejection_classes (host SyncApprox stamp_2 true origin IDENTITY)
              no_width_display (pinhole 0 480 500 320 240) (image_at stamp_1 0 480)
              eq_refl eq_refl) as (_ & Hm & _ & Hup).
  apply Hup, Hm. split; [reflexivity|]. split; [reflexivity|]. left. split; reflexivity.
Defined.

(** C5, the claim as stated fails: the camera info's width is 0 but its
    height is 480, so not both are zero; the texture has no width either,
    and the resolve is rejected as malformed. *)
Lemma malformed_with_only_width_zero :
  let ctx := host SyncApprox stamp_2 true origin IDENTITY in
  current_caminfo_ no_width_display = Some (pinhole 0 480 500 320 240)
  /\ width (pinhole 0 480 500 320 240) = 0
  /\ height (pinhole 0 480 500 320 240) = 480
  /\ tex_width (texture_ no_width_display) = 0
  /\ rejection ctx no_width_display = Some Malformed
  /\ updateCamera ctx no_width_display
     = (false, setStatus Error "Camera Info" msg_malformed no_width_display).
Proof.
  cbv zeta.
  assert (Hr : rejection (host SyncApprox stamp_2 true origin IDENTITY) no_width_display
               = Some Malformed) by (vm_compute; reflexivity).
  repeat split; try exact Hr; try exact (updateCamera_rejected _ _ _ Hr); reflexivity.
Qed.

Lemma buffer_bytes_IEEE (rw : RenderWindow) :
  buffer_bytes rw = SFtrunc (B64.mul (B64.of_Z (datasize rw)) double_1_05).
Proof. reflexivity. Qed.

Lemma datasize_range (rw : RenderWindow) : 0 <= datasize rw < 2 ^ 32.
Proof. unfold datasize, uint_max. apply Z.mod_pos_bound. reflexivity. Qed.

(** C9 (as amended).  The buffer [publishFrame] allocates has
    floor(21 * datasize / 20) bytes, [datasize] being the queried
    width * height * bytes-per-pixel reduced to 32 bits, and the size
    depends on nothing but the queried values.  So it is never smaller
    than [datasize]; when the queried product fits 32 bits it covers the
    queried frame; and it covers the frame of a window resized between the
    query and the read-back exactly when 20 times the new size is at most
    21 times the queried one, that is, within the 5 percent margin. *)
Theorem readback_buffer_size (rw : RenderWindow) :
  buffer_bytes rw = 21 * datasize rw / 20
  /\ datasize rw <= buffer_bytes rw
  /\ (0 <= required_bytes rw < uint_max -> required_bytes rw <= buffer_bytes rw)
  /\ (forall resized : RenderWindow,
        0 <= required_bytes rw < uint_max ->
        (required_bytes resized <= buffer_bytes rw
         <-> 20 * required_bytes resized <= 21 * required_bytes rw))
  /\ (forall vp : VideoPublisher,
        pub_topic vp <> "" ->
        snd (publishFrame rw vp)
        = [EvAlloc (buffer_bytes rw); EvCopyContents (getWidth rw) (getHeight rw);
           EvPublish (mkFrame (image_id_ vp) (getHeight rw) (getWidth rw)
                        ((getNumElemBytes rw * getWidth rw) mod uint_max) "rgb8"
                        (datasize rw))]).
Proof.
  pose proof (datasize_range rw) as Hr.
  assert (Hb : buffer_bytes rw = 21 * datasize rw / 20).
  { rewrite buffer_bytes_IEEE. apply mul_1_05_exact. exact Hr. }
  assert (Hsmall : 0 <= required_bytes rw < uint_max -> datasize rw = required_bytes rw).
  { intros H. unfold datasize. apply Z.mod_small. exact H. }
  split; [exact Hb|]. split; [|split; [|split]].
  - rewrite Hb. apply Z.div_le_lower_bound; lia.
  - intros H. rewrite Hb, (Hsmall H). apply Z.div_le_lower_bound; lia.
  - intros resized H. rewrite Hb, (Hsmall H). split.
    + intros Hle. pose proof (Z.mul_div_le (21 * required_bytes rw) 20 eq_refl). lia.
    + intros Hle. apply Z.div_le_lower_bound; lia.
  - intros vp Ht. unfold publishFrame.
    destruct (String.eqb (pub_topic vp) "") eqn:E; [|reflexivity].
    apply String.eqb_eq in E. contradiction.
Qed.

Lemma readback_buffer_size_witness :
  buffer_bytes (mkRenderWindow 640 480 3) = 967680
  /\ required_bytes (mkRenderWindow 640 480 3) <= buffer_bytes (mkRenderWindow 640 480 3)
  /\ required_bytes (mkRenderWindow 656 491 3) <= buffer_bytes (mkRenderWindow 640 480 3).
Proof.
  destruct (readback_buffer_size (mkRenderWindow 640 480 3)) as (Hb & _ & Hq & Hres & _).
  split; [rewrite Hb; reflexivity|]. split.
  - apply Hq. vm_compute. split; [discriminate|reflexivity].
  - apply (Hres (mkRenderWindow 656 491 3)).
    + vm_compute. split; [discriminate|reflexivity].
    + vm_compute. discriminate.
Defined.

(** C9, the claim as stated fails: the size is queried at 640x480 with 3
    bytes per pixel, 967680 bytes are allocated, and a window resized to
    800x600 before the read-back holds 1440000 bytes.  (And a queried size
    whose product does not fit 32 bits is not covered either: 32768 x
    32768 x 4 wraps to 0.) *)
Lemma resized_frame_exceeds_buffer :
  let queried := mkRenderWindow 640 480 3 in
  let resized := mkRenderWindow 800 600 3 in
  buffer_bytes queried = 967680
  /\ required_bytes resized = 1440000
  /\ ~ required_bytes resized <= buffer_bytes queried
  /\ buffer_bytes (mkRenderWindow 32768 32768 4) = 0
  /\ required_bytes (mkRenderWindow 32768 32768 4) = 4294967296.
Proof.
  cbv zeta. split; [reflexivity|]. split; [reflexivity|].
  split; [vm_compute; intros H; apply H; reflexivity|].
  split; reflexivity.
Qed.

(** * Further properties of the display

    What the rest of [camera_display.cpp] does around the claims above:
    the frame of [updateCamera], the publisher's sequence numbers and frame
    layout, the update tick, the message callbacks, [clear],
    [subscribe] / [unsubscribe] and [onEnable] / [onDisable]. *)

Section Resolve.
Context {float double : Type} {A : Arith float double}.
Implicit Types (ctx : DisplayContext float) (d : CameraPub float double).
Implicit Types (info : CameraInfo double) (image : Image) (r : Rejection).

Lemma rejected_same r ctx d : same_outside_resolve d (rejected r ctx d).
Proof. destruct r; repeat split. Qed.

Lemma committed_same ctx info image d : same_outside_resolve d (committed ctx info image d).
Proof. unfold committed. destruct (resolved_zoom info d). repeat split. Qed.

Lemma rejected_status r ctx d (k : string) :
  k <> "Camera Info" -> k <> "Time" -> status_ (rejected r ctx d) !! k = status_ d !! k.
Proof.
  intros H1 H2. destruct r; cbn; try reflexivity; rewrite lookup_insert_ne; congruence.
Qed.

Lemma committed_status ctx info image d :
  status_ (committed ctx info image d)
  = <["Camera Info" := (Ok, Text "ok")]>
      (<["Time" := (Ok, Text "ok")]> (<["Camera Info" := (Ok, Text "OK")]> (status_ d))).
Proof. unfold committed. destruct (resolved_zoom info d). reflexivity. Qed.

(** A resolve is rejected or committed. *)
Lemma updateCamera_cases ctx d :
  (exists r, rejection ctx d = Some r /\ updateCamera ctx d = (false, rejected r ctx d))
  \/ (exists info image, rejection ctx d = None /\ current_caminfo_ d = Some info
        /\ getImage (texture_ d) = Some image
        /\ updateCamera ctx d = (true, committed ctx info image d)).
Proof.
  destruct (rejection ctx d) as [r|] eqn:Hr.
  - left. exists r. split; [reflexivity|]. apply updateCamera_rejected, Hr.
  - right. destruct (updateCamera_committed ctx d Hr) as (info & image & Hi & Him & H).
    exists info, image. auto.
Qed.

Lemma updateCamera_same ctx d : same_outside_resolve d (snd (updateCamera ctx d)).
Proof.
  destruct (updateCamera_cases ctx d) as [(r & _ & ->)|(info & image & _ & _ & _ & ->)];
    cbn [snd]; [apply rejected_same | apply committed_same].
Qed.

(** X1.  [updateCamera] writes the camera, the two screen rectangles and
    the statuses "Camera Info" and "Time", and nothing else: it leaves the
    texture, the camera info, the flags (also [caminfo_ok_], which its
    caller sets), the visibility of the surfaces, the publisher, the
    subscription and the size of the panel as they were, does nothing at
    the external interfaces (no event), and touches no other status, "Image"
    included. *)
Theorem updateCamera_writes_only_camera_and_status ctx d :
  let d' := snd (updateCamera ctx d) in
  same_outside_resolve d d'
  /\ (forall k : string, k <> "Camera Info" -> k <> "Time" ->
        status_ d' !! k = status_ d !! k).
Proof.
  cbv zeta. split; [apply updateCamera_same|].
  destruct (updateCamera_cases ctx d) as [(r & _ & ->)|(info & image & _ & _ & _ & ->)];
    cbn [snd].
  - intros k. apply rejected_status.
  - intros k H1 H2. rewrite committed_status. rewrite !lookup_insert_ne; congruence.
Qed.

Lemma rejection_same ctx d d' :
  texture_ d' = texture_ d -> current_caminfo_ d' = current_caminfo_ d ->
  rejection ctx d' = rejection ctx d.
Proof. intros Ht Hc. unfold rejection. rewrite Ht, Hc. reflexivity. Qed.

Lemma setStatus_twice l (k : string) t d :
  setStatus l k t (setStatus l k t d) = setStatus l k t d.
Proof. unfold setStatus. cbn. rewrite insert_insert_eq. reflexivity. Qed.

Lemma resolved_zoom_same info d d' :
  texture_ d' = texture_ d ->
  panel_width (render_panel_ d') = panel_width (render_panel_ d) ->
  panel_height (render_panel_ d') = panel_height (render_panel_ d) ->
  resolved_zoom info d' = resolved_zoom info d.
Proof. intros Ht Hw Hh. unfold resolved_zoom. rewrite Ht, Hw, Hh. reflexivity. Qed.

Lemma resolved_projection_same info d d' :
  texture_ d' = texture_ d ->
  panel_width (render_panel_ d') = panel_width (render_panel_ d) ->
  panel_height (render_panel_ d') = panel_height (render_panel_ d) ->
  resolved_projection info d' = resolved_projection info d.
Proof.
  intros Ht Hw Hh. unfold resolved_projection.
  rewrite (resolved_zoom_same info d d' Ht Hw Hh), Ht. reflexivity.
Qed.

(** What a committing resolve writes, as the sequence of writes of the
    source. *)
Lemma committed_writes ctx info image d :
  committed ctx info image d
  = let rc := zoomed_rect (fst (resolved_zoom info d)) (snd (resolved_zoom info d)) in
    setStatus Ok "Camera Info" (Text "ok")
      (setStatus Ok "Time" (Text "ok")
         (set_rects rc rc
            (setStatus Ok "Camera Info" (Text "OK")
               (set_camera (mkCamera (resolved_position ctx info image)
                              (resolved_orientation ctx image)
                              (Some (resolved_projection info d))) d)))).
Proof. unfold committed. destruct (resolved_zoom info d). reflexivity. Qed.

Lemma writes_twice (cam : Camera float) (rc : Rectangle2D float) d :
  let w d := setStatus Ok "Camera Info" (Text "ok")
               (setStatus Ok "Time" (Text "ok")
                  (set_rects rc rc
                     (setStatus Ok "Camera Info" (Text "OK") (set_camera cam d)))) in
  w (w d) = w d.
Proof.
  cbv zeta. destruct d as [tex rp ci nc fr ok bv fv br fg ip vp en tp cs st ev].
  cbv [setStatus set_rects set_camera texture_ render_panel_ current_caminfo_ new_caminfo_
       force_render_ caminfo_ok_ bg_visible fg_visible bg_screen_rect_ fg_screen_rect_
       image_position_property_ video_publisher_ isEnabled topic_property_ caminfo_sub_
       status_ events panel_width panel_height getCamera getRenderWindow].
  f_equal. apply map_eq. intros k.
  destruct (decide (k = "Camera Info")) as [->|H1].
  { rewrite !lookup_insert_eq. reflexivity. }
  rewrite !(lookup_insert_ne _ "Camera Info") by congruence.
  destruct (decide (k = "Time")) as [->|H2].
  { rewrite !lookup_insert_eq. reflexivity. }
  repeat (rewrite lookup_insert_ne by congruence). reflexivity.
Qed.

(** X2.  Resolving again with nothing new changes nothing: [updateCamera]
    run on the state it has just produced returns the same boolean and the
    same state.  (It reads the camera info, the image, the texture and the
    panel size, and writes none of them.) *)
Theorem updateCamera_idempotent ctx d :
  updateCamera ctx (snd (updateCamera ctx d)) = updateCamera ctx d.
Proof.
  destruct (updateCamera_cases ctx d) as [(r & Hr & ->)|(info & image & Hr & Hi & Him & ->)];
    cbn [snd].
  - rewrite (updateCamera_rejected ctx (rejected r ctx d) r).
    + f_equal. destruct r; cbn [rejected]; try reflexivity; apply setStatus_twice.
    + rewrite <- Hr. apply rejection_same; apply (rejected_same r ctx d).
  - pose proof (committed_same ctx info image d) as Hs.
    destruct Hs as (Ht & Hc & _ & _ & _ & _ & _ & _ & _ & _ & _ & _ & _ & Hw & Hh & _).
    assert (Hr' : rejection ctx (committed ctx info image d) = None).
    { rewrite <- Hr. apply rejection_same; assumption. }
    destruct (updateCamera_committed ctx _ Hr') as (info' & image' & Hi' & Him' & ->).
    rewrite Hc, Hi in Hi'. rewrite Ht, Him in Him'.
    injection Hi' as <-. injection Him' as <-. f_equal.
    etransitivity; [apply committed_writes|]. cbv zeta.
    rewrite (resolved_projection_same info d _ Ht Hw Hh).
    rewrite (resolved_zoom_same info d _ Ht Hw Hh).
    rewrite (committed_writes ctx info image d). cbv zeta.
    apply (writes_twice
             (mkCamera (resolved_position ctx info image) (resolved_orientation ctx image)
                (Some (resolved_projection info d)))
             (zoomed_rect (fst (resolved_zoom info d)) (snd (resolved_zoom info d))) d).
Qed.

Lemma updateCamera_no_input ctx d :
  current_caminfo_ d = None \/ getImage (texture_ d) = None ->
  updateCamera ctx d = (false, d).
Proof.
  intros H. apply (updateCamera_rejected ctx d NoInput). unfold rejection.
  destruct H as [-> | ->]; [reflexivity|]. destruct (current_caminfo_ d); reflexivity.
Qed.

(** X3.  Without a camera info or without an image [updateCamera] returns
    false and leaves the display exactly as it was: no status is set for
    the missing input.  When it returns true, a camera info and an image were
    there, and the statuses "Camera Info" and "Time" are both Ok with the
    text "ok". *)
Theorem resolve_without_input_is_silent ctx d :
  (current_caminfo_ d = None \/ getImage (texture_ d) = None ->
   updateCamera ctx d = (false, d))
  /\ (forall d', updateCamera ctx d = (true, d') ->
        current_caminfo_ d <> None /\ getImage (texture_ d) <> None
        /\ status_ d' !! "Camera Info" = Some (Ok, Text "ok")
        /\ status_ d' !! "Time" = Some (Ok, Text "ok")).
Proof.
  split; [apply updateCamera_no_input|].
  intros d' Hup.
  destruct (updateCamera_cases ctx d) as [(r & _ & E)|(info & image & _ & Hi & Him & E)];
    rewrite E in Hup; [discriminate|]. injection Hup as <-.
  rewrite Hi, Him, committed_status.
  split; [discriminate|]. split; [discriminate|].
  split; [apply lookup_insert_eq|].
  rewrite lookup_insert_ne by discriminate. apply lookup_insert_eq.
Qed.

End Resolve.

Lemma resolve_without_input_is_silent_witness :
  let ctx := host SyncApprox stamp_2 true origin IDENTITY in
  updateCamera ctx (clear example_display) = (false, clear example_display).
Proof.
  cbv zeta.
  apply (proj1 (resolve_without_input_is_silent
                  (host SyncApprox stamp_2 true origin IDENTITY) (clear example_display))).
  left. reflexivity.
Defined.

(** ** The video publisher *)

Section Publisher.
Context {float double : Type} {A : Arith float double}.
Implicit Types (d : CameraPub float double) (vp : VideoPublisher) (rw : RenderWindow).

Lemma shutdown_topic vp :
  pub_topic (fst (VideoPublisher_shutdown vp)) = ""
  /\ image_id_ (fst (VideoPublisher_shutdown vp)) = image_id_ vp.
Proof.
  unfold VideoPublisher_shutdown. destruct (String.eqb_spec (pub_topic vp) "") as [E|E].
  - split; [exact E|reflexivity].
  - split; reflexivity.
Qed.

Lemma publishFrame_idle rw vp : pub_topic vp = "" -> publishFrame rw vp = (vp, []).
Proof. intros E. unfold publishFrame. rewrite E. reflexivity. Qed.

Lemma publishFrame_active rw vp :
  pub_topic vp <> "" ->
  publishFrame rw vp
  = (mkVideoPublisher (pub_topic vp) ((image_id_ vp + 1) mod uint_max),
     [EvAlloc (buffer_bytes rw); EvCopyContents (getWidth rw) (getHeight rw);
      EvPublish (mkFrame (image_id_ vp) (getHeight rw) (getWidth rw)
                   ((getNumElemBytes rw * getWidth rw) mod uint_max) "rgb8"
                   (datasize rw))]).
Proof.
  intros E. unfold publishFrame.
  destruct (String.eqb_spec (pub_topic vp) ""); [contradiction|reflexivity].
Qed.

Lemma with_publisher_fields (m : VideoPublisher -> VideoPublisher * list Event) d :
  texture_ (with_publisher m d) = texture_ d
  /\ render_panel_ (with_publisher m d) = render_panel_ d
  /\ current_caminfo_ (with_publisher m d) = current_caminfo_ d
  /\ new_caminfo_ (with_publisher m d) = new_caminfo_ d
  /\ force_render_ (with_publisher m d) = force_render_ d
  /\ caminfo_ok_ (with_publisher m d) = caminfo_ok_ d
  /\ status_ (with_publisher m d) = status_ d
  /\ video_publisher_ (with_publisher m d) = fst (m (video_publisher_ d)).
Proof. unfold with_publisher. destruct (m (video_publisher_ d)). repeat split. Qed.

(** X4.  After [unsubscribe] the publisher has no topic (it is shut down
    if it had one, at most once: a second [unsubscribe] changes nothing), its
    frame counter is kept, and the end of a render pass then only hides
    the two surfaces: nothing is allocated, read back or published, and the
    counter does not advance. *)
Theorem unsubscribe_stops_publishing d :
  let d' := unsubscribe d in
  pub_topic (video_publisher_ d') = ""
  /\ image_id_ (video_publisher_ d') = image_id_ (video_publisher_ d)
  /\ events d'
     = events d ++ (if String.eqb (pub_topic (video_publisher_ d)) "" then []
                    else [EvShutdown])
  /\ unsubscribe d' = d'
  /\ video_publisher_ (postRenderTargetUpdate d') = video_publisher_ d'
  /\ events (postRenderTargetUpdate d')
     = events d' ++ [EvSetVisible Background false; EvSetVisible Overlay false].
Proof.
  cbv zeta.
  assert (Ht : pub_topic (video_publisher_ (unsubscribe d)) = "").
  { unfold unsubscribe.
    destruct (with_publisher_fields VideoPublisher_shutdown d)
      as (_ & _ & _ & _ & _ & _ & _ & ->).
    apply shutdown_topic. }
  split; [exact Ht|]. split; [|split; [|split; [|split]]].
  - unfold unsubscribe.
    destruct (with_publisher_fields VideoPublisher_shutdown d)
      as (_ & _ & _ & _ & _ & _ & _ & ->).
    apply shutdown_topic.
  - unfold unsubscribe. rewrite publish_events. unfold VideoPublisher_shutdown.
    destruct (String.eqb (pub_topic (video_publisher_ d)) ""); reflexivity.
  - revert Ht. generalize (unsubscribe d). intros d' Ht.
    unfold unsubscribe, with_publisher, VideoPublisher_shutdown. rewrite Ht.
    destruct d' as [tex rp ci nc fr ok bv fv br fg ip vp en tp cs st ev].
    cbn [String.eqb video_publisher_ texture_ render_panel_ current_caminfo_ new_caminfo_
         force_render_ caminfo_ok_ bg_visible fg_visible bg_screen_rect_ fg_screen_rect_
         image_position_property_ isEnabled topic_property_ caminfo_sub_ status_ events].
    rewrite app_nil_r. reflexivity.
  - revert Ht. generalize (unsubscribe d). intros d' Ht.
    unfold postRenderTargetUpdate.
    match goal with |- context [with_publisher ?m ?x] =>
      destruct (with_publisher_fields m x) as (_ & _ & _ & _ & _ & _ & _ & ->)
    end.
    rewrite publishFrame_idle; [reflexivity|exact Ht].
  - revert Ht. generalize (unsubscribe d). intros d' Ht.
    unfold postRenderTargetUpdate. rewrite publish_events.
    rewrite publishFrame_idle by exact Ht. rewrite app_nil_r.
    cbn [setVisible events]. rewrite <- app_assoc. reflexivity.
Qed.

Lemma publish_all_from (rws : list RenderWindow) vp (evs0 : list Event) :
  fold_left
    (fun acc rw =>
       let '(vp', evs) := publishFrame rw (fst acc) in (vp', snd acc ++ evs))
    rws (vp, evs0)
  = (fst (publish_all rws vp), evs0 ++ snd (publish_all rws vp)).
Proof.
  unfold publish_all. revert vp evs0.
  induction rws as [|rw rws IH]; intros vp evs0; cbn [fold_left fst snd].
  - rewrite app_nil_r. reflexivity.
  - destruct (publishFrame rw vp) as [vp1 e1]. cbn [app].
    rewrite (IH vp1 (evs0 ++ e1)), (IH vp1 e1). cbn [fst snd].
    rewrite app_assoc. reflexivity.
Qed.

Lemma publish_all_cons rw (rws : list RenderWindow) vp :
  publish_all (rw :: rws) vp
  = (fst (publish_all rws (fst (publishFrame rw vp))),
     snd (publishFrame rw vp) ++ snd (publish_all rws (fst (publishFrame rw vp)))).
Proof.
  unfold publish_all at 1. cbn [fold_left fst snd app].
  destruct (publishFrame rw vp) as [vp1 e1]. cbn [fst snd]. apply publish_all_from.
Qed.

Lemma published_app (a b : list Event) : published (a ++ b) = published a ++ published b.
Proof. unfold published. apply flat_map_app. Qed.

(** X5.  With a topic advertised, the frames published one after the
    other carry consecutive sequence numbers, starting at the counter and
    wrapping around at 2^32, whatever the size of the window at each frame;
    afterwards the counter has advanced by the number of frames and the
    topic is the same. *)
Theorem frame_sequence_numbers (rws : list RenderWindow) vp :
  pub_topic vp <> "" -> 0 <= image_id_ vp < uint_max ->
  map frame_seq (published (snd (publish_all rws vp)))
  = map (fun k => (image_id_ vp + Z.of_nat k) mod uint_max) (seq 0 (length rws))
  /\ image_id_ (fst (publish_all rws vp))
     = (image_id_ vp + Z.of_nat (length rws)) mod uint_max
  /\ pub_topic (fst (publish_all rws vp)) = pub_topic vp.
Proof.
  revert vp. induction rws as [|rw rws IH]; intros vp Ht Hid.
  - cbn. rewrite Z.add_0_r, Z.mod_small by exact Hid. repeat split.
  - rewrite publish_all_cons, (publishFrame_active rw vp Ht). cbn [fst snd].
    assert (Hm : 0 <= (image_id_ vp + 1) mod uint_max < uint_max).
    { apply Z.mod_pos_bound. reflexivity. }
    destruct (IH (mkVideoPublisher (pub_topic vp) ((image_id_ vp + 1) mod uint_max)) Ht Hm)
      as (IH1 & IH2 & IH3).
    cbn [image_id_ pub_topic] in IH1, IH2, IH3.
    split; [|split].
    + rewrite published_app. cbn [published flat_map app map frame_seq length seq].
      rewrite IH1. f_equal.
      * rewrite Z.add_0_r, Z.mod_small by exact Hid. reflexivity.
      * rewrite <- seq_shift, map_map. apply map_ext. intros k.
        rewrite Zplus_mod_idemp_l. f_equal. lia.
    + rewrite IH2. cbn [length]. rewrite Zplus_mod_idemp_l. f_equal. lia.
    + exact IH3.
Qed.

(** X6.  With a topic advertised and a window whose
    width * height * bytes-per-pixel fits 32 bits, [publishFrame] publishes
    exactly one frame; it has the window's width and height, its data size
    is step * height, its step is bytes-per-pixel * width (for a window of
    positive height), and its encoding is "rgb8" whatever the pixel format:
    the data size is the 3 * width * height of an RGB8 image only when the
    pixel format has 3 bytes per pixel (or the frame is empty). *)
Theorem published_frame_layout rw vp :
  pub_topic vp <> "" ->
  0 <= getWidth rw -> 0 <= getHeight rw -> 0 <= getNumElemBytes rw ->
  required_bytes rw < uint_max ->
  exists f,
    published (snd (publishFrame rw vp)) = [f]
    /\ frame_encoding f = "rgb8"
    /\ frame_width f = getWidth rw /\ frame_height f = getHeight rw
    /\ frame_data_size f = frame_step f * frame_height f
    /\ (0 < getHeight rw -> frame_step f = getNumElemBytes rw * getWidth rw)
    /\ (frame_data_size f = 3 * frame_width f * frame_height f
        <-> getNumElemBytes rw = 3 \/ getWidth rw = 0 \/ getHeight rw = 0).
Proof.
  intros Ht Hw Hh Hb Hfit. rewrite (publishFrame_active rw vp Ht). cbn [snd].
  eexists. split; [reflexivity|].
  cbn [frame_encoding frame_width frame_height frame_data_size frame_step].
  unfold datasize. unfold required_bytes in Hfit.
  assert (H0 : 0 <= getWidth rw * getHeight rw * getNumElemBytes rw) by nia.
  rewrite (Z.mod_small (getWidth rw * getHeight rw * getNumElemBytes rw)) by lia.
  assert (Hstep : 0 < getHeight rw ->
            (getNumElemBytes rw * getWidth rw) mod uint_max
            = getNumElemBytes rw * getWidth rw).
  { intros Hpos. apply Z.mod_small. split; [nia|].
    apply Z.le_lt_trans with (getWidth rw * getHeight rw * getNumElemBytes rw); [nia|lia]. }
  split; [reflexivity|]. split; [reflexivity|]. split; [reflexivity|].
  split; [|split].
  - destruct (Z.eq_dec (getHeight rw) 0) as [E|E].
    + rewrite E. lia.
    + rewrite Hstep by lia. lia.
  - exact Hstep.
  - split.
    + intros E. destruct (Z.eq_dec (getWidth rw) 0) as [Ew|Ew]; [auto|].
      destruct (Z.eq_dec (getHeight rw) 0) as [Eh|Eh]; [auto|]. left. nia.
    + intros [E|[E|E]]; rewrite E; lia.
Qed.

End Publisher.

Lemma frame_sequence_numbers_witness :
  let vp := mkVideoPublisher "rviz_out" 4294967295 in
  let rws := [mkRenderWindow 640 480 3; mkRenderWindow 800 600 3; mkRenderWindow 800 600 3] in
  map frame_seq (published (snd (publish_all rws vp))) = [4294967295; 0; 1]
  /\ image_id_ (fst (publish_all rws vp)) = 2.
Proof.
  cbv zeta.
  destruct (frame_sequence_numbers
              [mkRenderWindow 640 480 3; mkRenderWindow 800 600 3; mkRenderWindow 800 600 3]
              (mkVideoPublisher "rviz_out" 4294967295))
    as (H1 & H2 & _).
  - discriminate.
  - split; [discriminate|reflexivity].
  - split; [exact H1|exact H2].
Defined.

Lemma published_frame_layout_witness :
  exists f,
    published (snd (publishFrame (mkRenderWindow 640 480 4) (mkVideoPublisher "rviz_out" 7)))
    = [f]
    /\ frame_encoding f = "rgb8" /\ frame_step f = 2560 /\ frame_data_size f = 1228800.
Proof.
  destruct (published_frame_layout (mkRenderWindow 640 480 4) (mkVideoPublisher "rviz_out" 7))
    as (f & Hf & He & Hw & Hh & Hd & Hs & _);
    [discriminate | discriminate | discriminate | discriminate | reflexivity |].
  exists f. split; [exact Hf|]. split; [exact He|].
  cbn [getHeight getWidth getNumElemBytes] in Hs, Hh, Hd.
  rewrite Hd, (Hs eq_refl), Hh. split; reflexivity.
Defined.

(** ** The update tick *)

Section Ticks.
Context {float double : Type} {A : Arith float double}.
Implicit Types (ctx : DisplayContext float) (d : CameraPub float double).
Implicit Types (info : CameraInfo double) (image : Image).

(** One render pass: the listener before, the rendering, the listener
    after. *)
Lemma RenderWindow_update_spec d :
  let d' := RenderWindow_update d in
  let bg := shows Background (caminfo_ok_ d) d in
  let fg := shows Overlay (caminfo_ok_ d) d in
  texture_ d' = texture_ d /\ render_panel_ d' = render_panel_ d
  /\ current_caminfo_ d' = current_caminfo_ d
  /\ force_render_ d' = force_render_ d /\ caminfo_ok_ d' = caminfo_ok_ d
  /\ status_ d' = status_ d
  /\ video_publisher_ d'
     = fst (publishFrame (getRenderWindow (render_panel_ d)) (video_publisher_ d))
  /\ events d'
     = events d
       ++ [EvSetVisible Background bg; EvSetVisible Overlay fg; EvRender bg fg;
           EvSetVisible Background false; EvSetVisible Overlay false]
       ++ snd (publishFrame (getRenderWindow (render_panel_ d)) (video_publisher_ d)).
Proof.
  cbv zeta. unfold RenderWindow_update, postRenderTargetUpdate.
  match goal with |- context [with_publisher ?m ?x] =>
    destruct (with_publisher_fields m x) as (H1 & H2 & H3 & _ & H5 & H6 & H7 & H8);
    pose proof (publish_events m x) as H9
  end.
  rewrite H1, H2, H3, H5, H6, H7, H8, H9. clear H1 H2 H3 H5 H6 H7 H8 H9.
  unfold shows. destruct d as [tex rp ci nc fr ok bv fv br fg ip vp en tp cs st ev].
  cbv [preRenderTargetUpdate log with_publisher setVisible texture_ render_panel_
       current_caminfo_ force_render_ caminfo_ok_ status_
       video_publisher_ events bg_visible fg_visible image_position_property_ fst snd].
  rewrite <- !app_assoc. cbn [app]. repeat split.
Qed.

(** [update] is the resolve stage followed by one render pass. *)
Lemma update_unfold ctx d :
  update ctx d
  = RenderWindow_update
      (let r := fst (texture_update (texture_ d)) in
       let d0 := set_texture (snd (texture_update (texture_ d))) d in
       match r with
       | UnsupportedImageEncoding =>
           setStatus Error "Image"
             (Text (UnsupportedImageEncoding_what (texture_ d0))) d0
       | _ =>
           if resolves r d then
             set_flags (new_caminfo_ (snd (updateCamera ctx d0))) false
               (fst (updateCamera ctx d0)) (snd (updateCamera ctx d0))
           else d0
       end).
Proof.
  unfold update. destruct (texture_update (texture_ d)) as [r t]. cbv zeta. cbn [fst snd].
  f_equal. destruct r; cbn [resolves orb set_texture force_render_]; try reflexivity.
  - destruct (updateCamera ctx _) as [ok d']. reflexivity.
  - destruct (force_render_ d); [|reflexivity].
    destruct (updateCamera ctx _) as [ok d']. reflexivity.
Qed.


(** X8.  A new image in an encoding the texture cannot convert: the tick
    sets "Image" to Error with the text of the exception,
    "Unsupported image encoding [<encoding>]", touches no other status and
    does not resolve (the render panel with its camera, [caminfo_ok_] and
    a pending [force_render_] stay as they were).  It still renders: the
    surfaces are shown according to the old [caminfo_ok_] and the mode,
    the window renders once, the surfaces are hidden and [publishFrame] is
    called.  The image is consumed: the texture keeps its old size and,
    with no newer message, does not throw again on the following tick. *)
Theorem update_unsupported_encoding ctx d image :
  getImage (texture_ d) = Some image -> new_image_ (texture_ d) = true ->
  image_data_empty image = false -> image_encoding_supported image = false ->
  let d' := update ctx d in
  let bg := shows Background (caminfo_ok_ d) d in
  let fg := shows Overlay (caminfo_ok_ d) d in
  status_ d' !! "Image"
  = Some (Error,
          Text (String.append "Unsupported image encoding ["
                  (String.append (image_encoding image) "]")))
  /\ (forall k : string, k <> "Image" -> status_ d' !! k = status_ d !! k)
  /\ render_panel_ d' = render_panel_ d
  /\ caminfo_ok_ d' = caminfo_ok_ d /\ force_render_ d' = force_render_ d
  /\ events d'
     = events d
       ++ [EvSetVisible Background bg; EvSetVisible Overlay fg; EvRender bg fg;
           EvSetVisible Background false; EvSetVisible Overlay false]
       ++ snd (publishFrame (getRenderWindow (render_panel_ d)) (video_publisher_ d))
  /\ texture_ d' = mkTexture (Some image) false (tex_width (texture_ d))
                     (tex_height (texture_ d))
  /\ fst (texture_update (texture_ d')) = NotUpdated.
Proof.
  intros Him Hnew Hd He. cbv zeta.
  assert (Htu : texture_update (texture_ d)
                = (UnsupportedImageEncoding,
                   mkTexture (Some image) false (tex_width (texture_ d))
                     (tex_height (texture_ d)))).
  { unfold texture_update. rewrite Him, Hnew. cbn [getImage tex_width tex_height].
    rewrite Hd, He. reflexivity. }
  rewrite update_unfold, Htu. cbv zeta. cbn [fst snd].
  match goal with |- context [RenderWindow_update ?x] =>
    destruct (RenderWindow_update_spec x) as (-> & -> & _ & -> & -> & -> & _ & ->)
  end.
  unfold shows.
  cbn [setStatus set_texture status_ render_panel_ caminfo_ok_ force_render_ texture_
       events image_position_property_ video_publisher_
       UnsupportedImageEncoding_what getImage].
  split; [apply lookup_insert_eq|].
  split; [intros k Hk; apply lookup_insert_ne; congruence|].
  repeat split.
Qed.

(** X9.  [clear] followed by a tick: the camera info and the image are
    gone, so the resolve finds no input; [caminfo_ok_] becomes false and
    the frame is rendered with both surfaces hidden.  The camera is parked
    at (999999, 999999, 999999) with its orientation and projection
    untouched, and "Camera Info" and "Image" carry warnings. *)
Theorem clear_then_update ctx d :
  let d' := update ctx (clear d) in
  caminfo_ok_ d' = false /\ force_render_ d' = false
  /\ current_caminfo_ d' = None /\ getImage (texture_ d') = None
  /\ getCamera (render_panel_ d')
     = mkCamera parked (cam_orientation (getCamera (render_panel_ d)))
         (cam_custom_projection (getCamera (render_panel_ d)))
  /\ status_ d' !! "Image" = Some (Warn, Text "No Image received")
  /\ (exists text, status_ d' !! "Camera Info" = Some (Warn, text))
  /\ events d'
     = events d
       ++ [EvQueueRender;
           EvSetVisible Background false; EvSetVisible Overlay false;
           EvRender false false;
           EvSetVisible Background false; EvSetVisible Overlay false]
       ++ snd (publishFrame (getRenderWindow (render_panel_ d)) (video_publisher_ d)).
Proof.
  cbv zeta.
  assert (Hc : texture_ (clear d) = texture_clear (texture_ d)
               /\ current_caminfo_ (clear d) = None /\ force_render_ (clear d) = true
               /\ getCamera (render_panel_ (clear d))
                  = mkCamera parked (cam_orientation (getCamera (render_panel_ d)))
                      (cam_custom_projection (getCamera (render_panel_ d)))
               /\ getRenderWindow (render_panel_ (clear d)) = getRenderWindow (render_panel_ d)
               /\ video_publisher_ (clear d) = video_publisher_ d
               /\ status_ (clear d) !! "Image" = Some (Warn, Text "No Image received")
               /\ (exists text, status_ (clear d) !! "Camera Info" = Some (Warn, text))
               /\ events (clear d) = events d ++ [EvQueueRender]).
  { destruct d as [tex rp ci nc fr ok bv fv br fg ip vp en tp cs st ev].
    cbv [clear log with_publisher set_texture set_flags set_caminfo set_camera setStatus
         texture_ render_panel_ current_caminfo_ new_caminfo_ force_render_ caminfo_ok_
         bg_visible fg_visible bg_screen_rect_ fg_screen_rect_ image_position_property_
         video_publisher_ isEnabled topic_property_ caminfo_sub_ status_ events
         panel_width panel_height getCamera getRenderWindow].
    repeat split.
    - apply lookup_insert_eq.
    - eexists. rewrite lookup_insert_ne by discriminate. apply lookup_insert_eq. }
  destruct Hc as (Ht & Hi & Hf & Hcam & Hrw & Hvp & Hs1 & Hs2 & Hev).
  assert (Htu : texture_update (texture_ (clear d)) = (NotUpdated, texture_ (clear d))).
  { rewrite Ht. reflexivity. }
  rewrite update_unfold, Htu. cbv zeta. cbn [fst snd resolves]. rewrite Hf.
  assert (Hd0 : set_texture (texture_ (clear d)) (clear d) = clear d).
  { destruct (clear d). reflexivity. }
  rewrite Hd0, (updateCamera_no_input ctx (clear d)) by (left; exact Hi). cbn [fst snd].
  match goal with |- context [RenderWindow_update ?x] =>
    destruct (RenderWindow_update_spec x) as (-> & -> & -> & -> & -> & -> & _ & ->)
  end.
  cbn [set_flags caminfo_ok_ force_render_ current_caminfo_ texture_ render_panel_ status_
       events video_publisher_ shows image_position_property_ andb].
  rewrite Ht, Hi, Hcam, Hrw, Hvp, Hev, <- app_assoc. cbn [app].
  repeat split; assumption.
Qed.

(** X10.  The callbacks feed the next tick.  After [caminfoCallback info]
    and [processMessage msg] (an image with data, in an encoding the
    texture converts) the tick loads [msg] into the texture, which takes
    the image's width and height, and resolves with [info] and [msg]:
    [caminfo_ok_] is the result of that [updateCamera], and when it is
    true the camera stands at the pose looked up for the frame and stamp
    of [msg]. *)
Theorem messages_drive_the_next_tick ctx d info msg :
  image_data_empty msg = false -> image_encoding_supported msg = true ->
  let d1 := processMessage msg (caminfoCallback info d) in
  let loaded := mkTexture (Some msg) false (image_width msg) (image_height msg) in
  let d' := update ctx d1 in
  current_caminfo_ d' = Some info
  /\ texture_ d' = loaded
  /\ caminfo_ok_ d' = fst (updateCamera ctx (set_texture loaded (caminfoCallback info d)))
  /\ force_render_ d' = false
  /\ (caminfo_ok_ d' = true ->
        cam_orientation (getCamera (render_panel_ d')) = resolved_orientation ctx msg
        /\ cam_position (getCamera (render_panel_ d')) = resolved_position ctx info msg).
Proof.
  intros Hd He. cbv zeta.
  assert (Htu : texture_update (texture_ (processMessage msg (caminfoCallback info d)))
                = (Updated, mkTexture (Some msg) false (image_width msg) (image_height msg))).
  { unfold processMessage, texture_update. cbn [set_texture texture_ getImage new_image_].
    rewrite Hd, He. reflexivity. }
  assert (Hst : set_texture (mkTexture (Some msg) false (image_width msg) (image_height msg))
                  (processMessage msg (caminfoCallback info d))
                = set_texture (mkTexture (Some msg) false (image_width msg) (image_height msg))
                    (caminfoCallback info d)).
  { reflexivity. }
  rewrite update_unfold, Htu. cbv zeta. cbn [fst snd resolves]. rewrite Hst.
  set (d0 := set_texture _ (caminfoCallback info d)).
  match goal with |- context [RenderWindow_update ?x] =>
    destruct (RenderWindow_update_spec x) as (-> & -> & -> & -> & -> & _ & _ & _)
  end.
  cbn [set_flags current_caminfo_ texture_ caminfo_ok_ force_render_ render_panel_].
  destruct (updateCamera_cases ctx d0)
    as [(r & Hr & ->)|(info' & image' & Hr & Hi & Him & ->)]; cbn [fst snd].
  - destruct (rejected_same r ctx d0) as (-> & -> & _). repeat split; discriminate.
  - destruct (committed_same ctx info' image' d0) as (-> & -> & _).
    injection Hi as <-. injection Him as <-.
    rewrite committed_camera. repeat split.
Qed.


(** ** Subscribing, enabling and disabling *)

(** X12.  [subscribe] does nothing at all when the display is disabled or
    no image topic is set.  Otherwise a camera-info subscription that
    throws is reported as an Error on "Camera Info" with the exception's
    text, one that succeeds as Ok, and in both cases the publisher is
    advertised afterwards and keeps its frame counter. *)
Theorem subscribe_edge_cases (tr : Transport) d :
  (isEnabled d = false \/ topic_property_ d = "" -> subscribe tr d = d)
  /\ (isEnabled d = true -> topic_property_ d <> "" ->
      let caminfo_topic := getCameraInfoTopic tr (topic_property_ d) in
      match subscribe_throws tr caminfo_topic with
      | Some what =>
          status_ (subscribe tr d) !! "Camera Info"
          = Some (Error, Text ("Error subscribing: " ++ what))
      | None =>
          status_ (subscribe tr d) !! "Camera Info" = Some (Ok, Text "OK")
          /\ caminfo_sub_ (subscribe tr d) = caminfo_topic
      end
      /\ pub_topic (video_publisher_ (subscribe tr d)) <> ""
      /\ image_id_ (video_publisher_ (subscribe tr d)) = image_id_ (video_publisher_ d)).
Proof.
  split.
  - intros [H|H]; unfold subscribe; rewrite H; [reflexivity|].
    rewrite orb_true_r. reflexivity.
  - intros He Ht. cbv zeta. unfold subscribe. rewrite He. cbn [negb orb].
    destruct (String.eqb_spec (topic_property_ d) ""); [contradiction|].
    destruct (subscribe_throws tr _); cbn; repeat split;
      first [apply lookup_insert_eq | discriminate].
Qed.

(** X13.  [onDisable] deactivates the window, shuts the publisher down
    and clears the display: no topic, no camera info, no image, the camera
    parked, a render forced; neither it nor a later render pass publishes
    a frame.  [onEnable] of a display that is enabled with an image topic
    set then activates the window and advertises "rviz_out" again; the
    frame counter goes on from where it was, and the camera info has to
    arrive anew. *)
Theorem disable_then_enable (tr : Transport) (p : Plugin float double) :
  let off := onDisable p in
  window_active off = false
  /\ pub_topic (video_publisher_ (display off)) = ""
  /\ current_caminfo_ (display off) = None
  /\ getImage (texture_ (display off)) = None
  /\ cam_position (getCamera (render_panel_ (display off))) = parked
  /\ force_render_ (display off) = true
  /\ published (events (postRenderTargetUpdate (display off))) = published (events (display p))
  /\ (isEnabled (display p) = true -> topic_property_ (display p) <> "" ->
      let on := onEnable tr off in
      window_active on = true
      /\ pub_topic (video_publisher_ (display on)) = "rviz_out"
      /\ image_id_ (video_publisher_ (display on)) = image_id_ (video_publisher_ (display p))
      /\ current_caminfo_ (display on) = None).
Proof.
  cbv zeta. destruct p as [d act]. unfold onDisable, onEnable. cbn [display window_active].
  assert (Hu : pub_topic (video_publisher_ (unsubscribe d)) = ""
               /\ image_id_ (video_publisher_ (unsubscribe d)) = image_id_ (video_publisher_ d)
               /\ published (events (unsubscribe d)) = published (events d)
               /\ isEnabled (unsubscribe d) = isEnabled d
               /\ topic_property_ (unsubscribe d) = topic_property_ d).
  { unfold unsubscribe.
    destruct (with_publisher_fields VideoPublisher_shutdown d)
      as (_ & _ & _ & _ & _ & _ & _ & Hv).
    rewrite Hv, publish_events, published_app.
    destruct (shutdown_topic (video_publisher_ d)) as [-> ->].
    split; [reflexivity|]. split; [reflexivity|]. split.
    - unfold VideoPublisher_shutdown.
      destruct (String.eqb _ _); cbn; rewrite app_nil_r; reflexivity.
    - unfold with_publisher. destruct (VideoPublisher_shutdown _). split; reflexivity. }
  revert Hu. generalize (unsubscribe d). intros u (Hu1 & Hu2 & Hu3 & Hu4 & Hu5).
  assert (Hc : video_publisher_ (clear u) = video_publisher_ u
               /\ current_caminfo_ (clear u) = None
               /\ getImage (texture_ (clear u)) = None
               /\ cam_position (getCamera (render_panel_ (clear u))) = parked
               /\ force_render_ (clear u) = true
               /\ events (clear u) = events u ++ [EvQueueRender]
               /\ isEnabled (clear u) = isEnabled u
               /\ topic_property_ (clear u) = topic_property_ u).
  { destruct u as [tex rp ci nc fr ok bv fv br fg ip vp en tp cs st ev].
    cbv [clear log with_publisher set_texture set_flags set_caminfo set_camera setStatus
         texture_clear getImage cam_position
         texture_ render_panel_ current_caminfo_ new_caminfo_ force_render_ caminfo_ok_
         bg_visible fg_visible bg_screen_rect_ fg_screen_rect_ image_position_property_
         video_publisher_ isEnabled topic_property_ caminfo_sub_ status_ events
         panel_width panel_height getCamera getRenderWindow].
    repeat split. }
  revert Hc. generalize (clear u). intros c (Hc1 & Hc2 & Hc3 & Hc4 & Hc5 & Hc6 & Hc7 & Hc8).
  split; [reflexivity|]. split; [rewrite Hc1; exact Hu1|].
  split; [exact Hc2|]. split; [exact Hc3|]. split; [exact Hc4|]. split; [exact Hc5|].
  split.
  - unfold postRenderTargetUpdate. rewrite publish_events.
    cbn [setVisible render_panel_ video_publisher_ events].
    rewrite publishFrame_idle by (rewrite Hc1; exact Hu1).
    rewrite app_nil_r, !published_app, Hc6, published_app, Hu3. cbn.
    rewrite !app_nil_r. reflexivity.
  - intros He Ht. unfold subscribe. rewrite Hc7, Hu4, He, Hc8, Hu5. cbn [negb orb].
    destruct (String.eqb_spec (topic_property_ d) ""); [contradiction|].
    split; [reflexivity|].
    destruct (subscribe_throws tr _); cbn; rewrite Hc1, Hu2, Hc2; repeat split.
Qed.

End Ticks.

Lemma update_unsupported_encoding_witness :
  let ctx := host SyncApprox stamp_2 true origin IDENTITY in
  let d := processMessage unsupported_image example_display in
  status_ (update ctx d) !! "Image"
  = Some (Error, Text "Unsupported image encoding [yuv422]")
  /\ caminfo_ok_ (update ctx d) = false /\ force_render_ (update ctx d) = true
  /\ fst (texture_update (texture_ (update ctx d))) = NotUpdated.
Proof.
  cbv zeta.
  destruct (update_unsupported_encoding (host SyncApprox stamp_2 true origin IDENTITY)
              (processMessage unsupported_image example_display) unsupported_image
              eq_refl eq_refl eq_refl eq_refl) as (H0 & _ & _ & H1 & H2 & _ & _ & H3).
  split; [exact H0|]. split; [exact H1|]. split; [exact H2|exact H3].
Defined.

Lemma messages_drive_the_next_tick_witness :
  let ctx := host SyncApprox stamp_2 true origin IDENTITY in
  let d' := update ctx (processMessage (image_at stamp_1 640 480)
                          (caminfoCallback (pinhole 640 480 500 320 240) example_display)) in
  current_caminfo_ d' = Some (pinhole 640 480 500 320 240)
  /\ texture_ d' = mkTexture (Some (image_at stamp_1 640 480)) false 640 480
  /\ force_render_ d' = false.
Proof.
  cbv zeta.
  destruct (messages_drive_the_next_tick (host SyncApprox stamp_2 true origin IDENTITY)
              example_display (pinhole 640 480 500 320 240) (image_at stamp_1 640 480)
              eq_refl eq_refl) as (H1 & H2 & _ & H3 & _).
  split; [exact H1|]. split; [exact H2|exact H3].
Defined.


Lemma subscribe_edge_cases_witness :
  let tr := mkTransport (fun _ => "/camera/camera_info") (fun _ => Some "invalid name") in
  status_ (subscribe tr example_display) !! "Camera Info"
  = Some (Error, Text "Error subscribing: invalid name")
  /\ pub_topic (video_publisher_ (subscribe tr example_display)) <> "".
Proof.
  cbv zeta.
  destruct (subscribe_edge_cases
              (mkTransport (fun _ => "/camera/camera_info") (fun _ => Some "invalid name"))
              example_display) as [_ H].
  destruct (H eq_refl) as (H1 & H2 & _); [discriminate|].
  split; [exact H1|exact H2].
Defined.

Lemma disable_then_enable_witness :
  let tr := mkTransport (fun _ => "/camera/camera_info") (fun _ => None) in
  let p := mkPlugin example_display true in
  pub_topic (video_publisher_ (display (onDisable p))) = ""
  /\ pub_topic (video_publisher_ (display (onEnable tr (onDisable p)))) = "rviz_out".
Proof.
  cbv zeta.
  destruct (disable_then_enable
              (mkTransport (fun _ => "/camera/camera_info") (fun _ => None))
              (mkPlugin example_display true)) as (_ & H1 & _ & _ & _ & _ & _ & H).
  destruct (H eq_refl) as (_ & H2 & _); [discriminate|].
  split; [exact H1|exact H2].
Defined.

(** ** Degenerate intrinsics and viewports, in IEEE arithmetic *)

Lemma SFdiv_by_zero (prec emax : Z) (x : spec_float) (s : bool) :
  SFisfinite (SFdiv prec emax x (S754_zero s)) = false.
Proof. destruct x; reflexivity. Qed.

Lemma SFmul_nonfinite_r (prec emax : Z) (x y : spec_float) :
  SFisfinite y = false -> SFisfinite (SFmul prec emax x y) = false.
Proof. destruct y; try discriminate; intros _; destruct x; reflexivity. Qed.

Lemma SFadd_nonfinite_l (prec emax : Z) (x y : spec_float) :
  SFisfinite x = false -> SFisfinite (SFadd prec emax x y) = false.
Proof.
  destruct x as [|sx| |]; try discriminate; intros _; destruct y as [|sy| |];
    try reflexivity.
  destruct sx, sy; reflexivity.
Qed.

Lemma SFadd_nonfinite_r (prec emax : Z) (x y : spec_float) :
  SFisfinite y = false -> SFisfinite (SFadd prec emax x y) = false.
Proof.
  destruct y as [|sy| |]; try discriminate; intros _; destruct x as [|sx| |];
    try reflexivity.
  destruct sx, sy; reflexivity.
Qed.

Lemma SFconvert_nonfinite (prec emax : Z) (x : spec_float) :
  SFisfinite x = false -> SFisfinite (SFconvert prec emax x) = false.
Proof. destruct x; try discriminate; intros _; reflexivity. Qed.

Lemma SFeqb_zero_inv (x : spec_float) :
  SFeqb x (S754_zero false) = true -> exists s, x = S754_zero s.
Proof.
  destruct x as [s|s| |s m e]; try discriminate.
  - eauto.
  - destruct s; discriminate.
  - destruct s; discriminate.
Qed.

Lemma deqb_zero_inv (x : binary64) :
  deqb x (d_of_Z 0) = true -> exists s, bits64 x = S754_zero s.
Proof. apply SFeqb_zero_inv. Qed.

(** A focal length of zero makes the baseline translation, and with it
    the position, infinite or NaN. *)
Lemma baseline_position_zero_focal (info : CameraInfo binary64)
    (p : Vector3 binary32) (q : Quaternion binary32) :
  deqb (P info !!! 0%fin) (d_of_Z 0) = true \/ deqb (P info !!! 5%fin) (d_of_Z 0) = true ->
  validateFloats_Vector3 (baseline_position info p q) = false.
Proof.
  intros H. unfold validateFloats_Vector3.
  assert (Hx : f_isfinite (vx (baseline_position info p q)) = false).
  { unfold baseline_position. cbv zeta.
    generalize (Qrotate q UNIT_X) (Qrotate q UNIT_Y). intros right down.
    cbn [Vadd Vscale vx fadd fmul to_float dmul ddiv IEEE lift32 lift64 bits32 bits64
         f_isfinite].
    destruct H as [H|H]; apply deqb_zero_inv in H; destruct H as [s Hs]; rewrite Hs.
    - apply SFadd_nonfinite_l, SFadd_nonfinite_r, SFmul_nonfinite_r, SFconvert_nonfinite,
        SFmul_nonfinite_r, SFdiv_by_zero.
    - apply SFadd_nonfinite_r, SFmul_nonfinite_r, SFconvert_nonfinite,
        SFmul_nonfinite_r, SFdiv_by_zero. }
  rewrite Hx. reflexivity.
Qed.

(** X14.  A camera info whose fx (P[0]) or fy (P[5]) is zero is never
    accepted: the division by the focal length makes the baseline
    translation, and with it the position, infinite or NaN, whatever the
    pose.  [updateCamera] returns false and leaves the camera alone; when no
    earlier check rejects, the status is the Error "CameraInfo/P resulted
    in an invalid position calculation (nans or infs)". *)
Theorem zero_focal_length_is_rejected
    (ctx : DisplayContext binary32) (d : CameraPub binary32 binary64)
    (info : CameraInfo binary64) :
  current_caminfo_ d = Some info ->
  deqb (P info !!! 0%fin) (d_of_Z 0) = true \/ deqb (P info !!! 5%fin) (d_of_Z 0) = true ->
  fst (updateCamera ctx d) = false
  /\ getCamera (render_panel_ (snd (updateCamera ctx d))) = getCamera (render_panel_ d)
  /\ (forall image,
        getImage (texture_ d) = Some image -> validateFloats info = true ->
        sync_mismatch ctx image = false ->
        (let '(w, h) := image_size info (texture_ d) in size_undetermined w h) = false ->
        updateCamera ctx d
        = (false, setStatus Error "Camera Info" msg_invalid_position d)).
Proof.
  intros Hi Hf.
  assert (Hrej : exists r, rejection ctx d = Some r
            /\ forall image,
                 getImage (texture_ d) = Some image -> validateFloats info = true ->
                 sync_mismatch ctx image = false ->
                 (let '(w, h) := image_size info (texture_ d) in size_undetermined w h)
                 = false ->
                 r = InvalidPosition).
  { unfold rejection. rewrite Hi.
    destruct (getImage (texture_ d)) as [image|]; [|eexists; split; [reflexivity|discriminate]].
    destruct (validateFloats info); cbn [negb];
      [|eexists; split; [reflexivity|]; intros ? _ ?; discriminate].
    destruct (sync_mismatch ctx image) eqn:Hs;
      [eexists; split; [reflexivity|]; intros ? [= <-] _ ?; congruence|].
    destruct (image_size info (texture_ d)) as [w h].
    destruct (size_undetermined w h);
      [eexists; split; [reflexivity|]; intros ? _ _ _ ?; discriminate|].
    unfold resolved_position. rewrite (baseline_position_zero_focal info _ _ Hf).
    cbn [negb]. eexists; split; reflexivity. }
  destruct Hrej as (r & Hr & Hkind).
  rewrite (updateCamera_rejected ctx d r Hr). cbn [fst snd].
  split; [reflexivity|]. split; [apply rejected_keeps_camera|].
  intros image Him Hv Hs Hu. rewrite (Hkind image Him Hv Hs Hu). reflexivity.
Qed.

Lemma zero_focal_length_is_rejected_witness :
  let ctx := host SyncApprox stamp_2 true origin IDENTITY in
  let d := initialized (pinhole 640 480 0 320 240) (image_at stamp_1 640 480)
             640 480 640 480 in
  updateCamera ctx d = (false, setStatus Error "Camera Info" msg_invalid_position d).
Proof.
  cbv zeta.
  destruct (zero_focal_length_is_rejected
              (host SyncApprox stamp_2 true origin IDENTITY)
              (initialized (pinhole 640 480 0 320 240) (image_at stamp_1 640 480)
                 640 480 640 480)
              (pinhole 640 480 0 320 240) eq_refl (or_introl eq_refl)) as (_ & _ & H).
  apply (H (image_at stamp_1 640 480)); reflexivity.
Defined.

(** X15.  With a render panel of width 0 or height 0 the aspect ratios
    are not compared: both zoom factors stay 1, and an accepted resolve
    gives both screen rectangles the full-screen corners (-1, 1, 1, -1). *)
Theorem empty_viewport_keeps_full_screen
    (ctx : DisplayContext binary32) (d d' : CameraPub binary32 binary64) :
  panel_width (render_panel_ d) = 0 \/ panel_height (render_panel_ d) = 0 ->
  updateCamera ctx d = (true, d') ->
  (forall info, resolved_zoom info d = (f_of_Z 1, f_of_Z 1))
  /\ bg_screen_rect_ d' = mkRectangle2D (f_of_Z (-1)) (f_of_Z 1) (f_of_Z 1) (f_of_Z (-1))
  /\ fg_screen_rect_ d' = mkRectangle2D (f_of_Z (-1)) (f_of_Z 1) (f_of_Z 1) (f_of_Z (-1)).
Proof.
  intros Hp Hup.
  assert (Hz : forall info, resolved_zoom info d = (f_of_Z 1, f_of_Z 1)).
  { intros info. unfold resolved_zoom. destruct (image_size info (texture_ d)) as [w h].
    unfold zoom_factors, f_neqb. rewrite !f_of_Z_eq_zero.
    destruct Hp as [-> | ->]; cbn [Z.eqb negb andb]; [reflexivity|].
    rewrite andb_false_r. reflexivity. }
  split; [exact Hz|].
  destruct (updateCamera_cases ctx d) as [(r & _ & E)|(info & image & _ & _ & _ & E)];
    rewrite E in Hup; [discriminate|]. injection Hup as <-.
  destruct (committed_rects ctx info image d) as [-> ->]. rewrite Hz.
  split; reflexivity.
Qed.

Lemma empty_viewport_keeps_full_screen_witness :
  let ctx := host SyncApprox stamp_2 true origin IDENTITY in
  let d := initialized (pinhole 640 480 500 320 240) (image_at stamp_1 640 480)
             640 480 0 480 in
  bg_screen_rect_ (snd (updateCamera ctx d))
  = mkRectangle2D (f_of_Z (-1)) (f_of_Z 1) (f_of_Z 1) (f_of_Z (-1)).
Proof.
  cbv zeta.
  refine (proj1 (proj2 (empty_viewport_keeps_full_screen
            (host SyncApprox stamp_2 true origin IDENTITY)
            (initialized (pinhole 640 480 500 320 240) (image_at stamp_1 640 480)
               640 480 0 480) _ (or_introl eq_refl) _))).
  vm_compute. reflexivity.
Defined.

(** X16.  When the tick's texture update loads a new image, the texture
    takes that image's width and height, and they are what the resolve
    falls back to: with an image of non-zero width and height the resolve
    that follows is never rejected as malformed, and a camera info with
    width = height = 0 is resolved with the image's size. *)
Theorem loaded_image_supplies_the_size
    (ctx : DisplayContext binary32) (d : CameraPub binary32 binary64)
    (t : ROSImageTexture) :
  texture_update (texture_ d) = (Updated, t) ->
  exists image,
    getImage t = Some image
    /\ tex_width t = image_width image /\ tex_height t = image_height image
    /\ (image_width image <> 0 -> image_height image <> 0 ->
        rejection ctx (set_texture t d) <> Some Malformed
        /\ forall info, width info = 0 -> height info = 0 ->
             image_size info t = (f_of_Z (image_width image), f_of_Z (image_height image))).
Proof.
  unfold texture_update. destruct (getImage (texture_ d)) as [image|] eqn:Him; [|discriminate].
  destruct (new_image_ (texture_ d)); [|discriminate].
  cbn [getImage tex_width tex_height].
  destruct (image_data_empty image); [discriminate|].
  destruct (image_encoding_supported image); [|discriminate].
  intros [= <-]. exists image. cbn [getImage tex_width tex_height].
  split; [reflexivity|]. split; [reflexivity|]. split; [reflexivity|].
  intros Hw Hh. split.
  - unfold rejection. cbn [set_texture current_caminfo_ texture_ getImage].
    destruct (current_caminfo_ d) as [info|]; [|discriminate].
    destruct (negb (validateFloats info)); [discriminate|].
    destruct (sync_mismatch ctx image); [discriminate|].
    rewrite image_size_IEEE, size_undetermined_IEEE. cbn [tex_width tex_height].
    destruct (Z.eqb_spec (width info) 0), (Z.eqb_spec (height info) 0);
      destruct (Z.eqb_spec (image_width image) 0); try contradiction;
      destruct (Z.eqb_spec (image_height image) 0); try contradiction;
      try (destruct (Z.eqb_spec (width info) 0); [contradiction|]);
      try (destruct (Z.eqb_spec (height info) 0); [contradiction|]);
      cbn [orb]; destruct (negb _); discriminate.
  - intros info Ew Eh. rewrite image_size_IEEE, Ew, Eh. reflexivity.
Qed.

Lemma loaded_image_supplies_the_size_witness :
  let ctx := host SyncApprox stamp_2 true origin IDENTITY in
  let d := processMessage (image_at stamp_1 640 480)
             (initialized (pinhole 0 0 500 320 240) (image_at stamp_1 640 480) 0 0 640 480) in
  exists image, image_width image = 640 /\
    rejection ctx (set_texture (snd (texture_update (texture_ d))) d) <> Some Malformed.
Proof.
  cbv zeta.
  destruct (loaded_image_supplies_the_size (host SyncApprox stamp_2 true origin IDENTITY)
              (processMessage (image_at stamp_1 640 480)
                 (initialized (pinhole 0 0 500 320 240) (image_at stamp_1 640 480)
                    0 0 640 480))
              (mkTexture (Some (image_at stamp_1 640 480)) false 640 480) eq_refl)
    as (image & Hi & Hw & _ & H).
  exists image. cbn [getImage tex_width] in Hi, Hw. injection Hi as <-.
  split; [reflexivity|].
  apply H; discriminate.
Defined.

(** ** The projection and the orientation, in exact arithmetic *)

Section ExactProjection.
#[local] Existing Instance Exact.







End ExactProjection.

Section ExactNorm.
#[local] Existing Instance Exact.



End ExactNorm.

Section ExactBaseline.
#[local] Existing Instance Exact.



End ExactBaseline.
